(** * media-worker: the audio splitter, the video merger and the handler

    A shallow embedding of the cycle-cut planner
    [compute_equalized_cycle_cuts], the timestamp formatter [hhmmss_ms],
    the segment exporter and the orchestrator [process_audio_split]
    ([src/audio_splitter.py]), of [merge_videos] ([src/video_merger.py])
    and of [rp_handler] ([src/handler.py]), together with the properties
    the specification states about them.

    Numeric model.  Python [int] is [Z].  Python [float] is read twice.

    - The exact reading (the definitions at the top level): a float is a
      rational in [Q], every operation is the exact one, [x // y] is the
      floor of the exact quotient, [round(x)] and [round(x, 3)] round the
      exact value half-to-even.  It is used for what does not turn on a
      rounding error: the shape and order of a plan, the order of the
      calls, the validation.

    - The binary64 reading ([Module B64]): a float is a binary64 number
      of the kernel, the operations round as the hardware does, and [//],
      [round], [int] and [round(x, 3)] follow CPython, infinities and NaN
      included.  It is used wherever a statement turns on the value a
      float operation returns: the feasibility test, the phase flags, the
      timestamps of the transcoder commands. *)

From Stdlib Require Import ZArith QArith Qabs Qround Qreduction.
From Stdlib Require PrimFloat SpecFloat FloatOps.
From Stdlib Require Import List String Ascii Bool Sorted.
From Stdlib Require Import DecimalString DecimalPos DecimalN.
From Stdlib Require Import Lia Lqa.
Import ListNotations.

Local Open Scope Z_scope.

(** ** Exceptions *)

Inductive exn_class : Type :=
| ValueError
| RuntimeError
| ZeroDivisionError
| CollaboratorError    (* requests / botocore / OS errors raised by a collaborator *)
| OverflowError.

(** The message carried by an exception; one constructor per [raise] site
    of the module, plus the texts built from another exception. *)
Inductive message : Type :=
| msg_no_cycles          (* "No hay ciclos suficientes (reduce segments o usa otro cycle)." *)
| msg_segments           (* "segments debe ser >= 1" *)
| msg_codec_api          (* "codec invalido (usa mp3|aac|copy)" *)
| msg_codec_export       (* "codec invalido" *)
| msg_url_scheme         (* "URL debe ser http(s)" *)
| msg_cycle_source       (* "Pasa 'video_url' o 'video_duration'" *)
| msg_cycle_positive     (* "La duracion del ciclo debe ser > 0" *)
| msg_too_large (max_bytes : Z)   (* f"Archivo supera el limite de {max_bytes} bytes" *)
| msg_float_floor_div    (* text of float // 0.0 *)
| msg_float_div          (* text of float / 0 *)
| msg_text (s : string)  (* diagnostic text coming from a collaborator *)
| msg_ffprobe_audio (m : message)   (* f"ffprobe error (audio): {e}" *)
| msg_ffprobe_video (m : message)   (* f"ffprobe error (video): {e}" *)
| msg_ffmpeg (m : message)          (* f"ffmpeg error: {e}" *)
| msg_int_too_large      (* "int too large to convert to float" *)
| msg_inf_to_int         (* "cannot convert float infinity to integer" *)
| msg_nan_to_int.        (* "cannot convert float NaN to integer" *)

Inductive exn : Type :=
| Raise (c : exn_class) (m : message).

(** [str(e)] *)
Definition str_of (e : exn) : message :=
  match e with Raise _ m => m end.

(** The specification's error taxonomy, as the exceptions the code raises. *)
Definition InsufficientCyclesError : exn := Raise ValueError msg_no_cycles.
Definition InvalidCycleError : exn := Raise ValueError msg_cycle_positive.
Definition MissingCycleSourceError : exn := Raise ValueError msg_cycle_source.

(** A computation that returns or raises. *)
Definition result (A : Type) : Type := (exn + A)%type.

Definition ret {A} (a : A) : result A := inr a.
Definition raise {A} (e : exn) : result A := inl e.
Definition bind {A B} (m : result A) (k : A -> result B) : result B :=
  match m with
  | inl e => inl e
  | inr a => k a
  end.

Declare Scope result_scope.
Delimit Scope result_scope with result.
Notation "x <- m ;; k" := (bind m (fun x => k))
  (at level 100, m at next level, right associativity) : result_scope.

(** ** Python numerics over the rationals *)

Module Py.

(** [int(x)] for a float: truncation toward zero. *)
Definition int (x : Q) : Z :=
  if Qle_bool 0 x then Qfloor x else Qceiling x.

(** [x // y] on floats. *)
Definition floordiv (x y : Q) : result Q :=
  if Qeq_bool y 0 then raise (Raise ZeroDivisionError msg_float_floor_div)
  else ret (inject_Z (Qfloor (x / y))).

(** [x / y] on floats. *)
Definition truediv (x y : Q) : result Q :=
  if Qeq_bool y 0 then raise (Raise ZeroDivisionError msg_float_div)
  else ret (x / y)%Q.

(** [round(x)]: the nearest integer, ties to the even one. *)
Definition round (x : Q) : Z :=
  let f := Qfloor x in
  match (x - inject_Z f ?= 1 # 2)%Q with
  | Lt => f
  | Gt => f + 1
  | Eq => if Z.even f then f else f + 1
  end.

(** [round(x, 3)]: the nearest multiple of 1/1000, ties to even, kept in
    lowest terms so that equal values are equal terms. *)
Definition round3 (x : Q) : Q :=
  Qred (inject_Z (round (x * inject_Z 1000)) / inject_Z 1000).

(** [range(a, b)] *)
Definition range (a b : Z) : list Z :=
  map (fun n => a + Z.of_nat n) (seq 0 (Z.to_nat (b - a))).

(** [max(0.0, x)] *)
Definition max0 (x : Q) : Q := if Qle_bool x 0 then 0%Q else x.

End Py.

(** ** [for] loops over a list of indices *)

Section ForLoop.
Context {S : Type} (body : Z -> S -> S).

(** The state after running the body for every index in turn. *)
Fixpoint for_each (idx : list Z) (st : S) : S :=
  match idx with
  | [] => st
  | i :: rest => for_each rest (body i st)
  end.

(** The iterations the loop goes through: each index with the state on
    entry to its iteration. *)
Fixpoint iterations (idx : list Z) (st : S) : list (Z * S) :=
  match idx with
  | [] => []
  | i :: rest => (i, st) :: iterations rest (body i st)
  end.
End ForLoop.

(** ** [for] loops whose body may raise *)

Section ForLoopRaising.
Context {S : Type} (body : Z -> S -> result S).

(** The state after the last iteration, or the first exception. *)
Fixpoint for_each_r (idx : list Z) (st : S) : result S :=
  match idx with
  | [] => inr st
  | i :: rest =>
      match body i st with
      | inl e => inl e
      | inr st' => for_each_r rest st'
      end
  end.

(** The iterations the loop enters, each index with the state on entry;
    an iteration that raises is the last one. *)
Fixpoint iterations_r (idx : list Z) (st : S) : list (Z * S) :=
  match idx with
  | [] => []
  | i :: rest =>
      (i, st) :: match body i st with
                 | inl _ => []
                 | inr st' => iterations_r rest st'
                 end
  end.
End ForLoopRaising.

(** [[f(a) for a in l]] for an [f] that may raise. *)
Fixpoint map_r {A B : Type} (f : A -> result B) (l : list A) : result (list B) :=
  match l with
  | [] => inr []
  | a :: rest =>
      match f a with
      | inl e => inl e
      | inr b =>
          match map_r f rest with
          | inl e => inl e
          | inr bs => inr (b :: bs)
          end
      end
  end.

(** ** The cycle-cut planner *)

Definition eps : Q := 1 # 1000.

(** The loop variables of the planner. *)
Record planner_state : Type := mk_planner_state {
  k_prev : Z;
  ks : list Z
}.

Section PlannerLoop.
Variables (segments max_k : Z) (ideal_len cycle : Q).

Definition ideal_k (i : Z) : Z :=
  let ideal_time := (inject_Z i * ideal_len)%Q in
  Py.round (ideal_time / cycle).

Definition min_allowed (st : planner_state) : Z := k_prev st + 1.

Definition max_allowed (i : Z) : Z := max_k - ((segments - 1) - i).

(** The test of the [if min_allowed > max_allowed] statement. *)
Definition collapses (i : Z) (st : planner_state) : bool :=
  min_allowed st >? max_allowed i.

(** The value appended to [ks] in iteration [i]. *)
Definition chosen_k (i : Z) (st : planner_state) : Z :=
  let min_allowed' :=
    if collapses i st then max_allowed i else min_allowed st in
  Z.max (Z.min (ideal_k i) (max_allowed i)) min_allowed'.

Definition planner_body (i : Z) (st : planner_state) : planner_state :=
  let k := chosen_k i st in
  {| k_prev := k; ks := ks st ++ [k] |}.
End PlannerLoop.

Definition planner_init : planner_state := {| k_prev := 0; ks := [] |}.

(** What holds of the loop variables on entry to iteration [i]: there is
    room for the next index, the indices chosen so far increase strictly
    from 0 up to [k_prev], and there are [i - 1] of them. *)
Definition planner_inv (segments max_k : Z) (i : Z) (st : planner_state) : Prop :=
  min_allowed st <= max_allowed segments max_k i
  /\ StronglySorted Z.lt (0 :: ks st)
  /\ Forall (fun k => k <= k_prev st) (0 :: ks st)
  /\ Z.of_nat (List.length (ks st)) = i - 1.

Local Open Scope result_scope.

Definition compute_equalized_cycle_cuts
    (audio_dur : Q) (segments : Z) (cycle : Q) : result (list Q) :=
  if segments =? 1 then ret [0%Q; audio_dur]
  else
    q <- Py.floordiv (audio_dur - eps) cycle ;;
    let max_k := Py.int q in
    if max_k <? segments - 1 then raise InsufficientCyclesError
    else
      ideal_len <- Py.truediv audio_dur (inject_Z segments) ;;
      let st := for_each (planner_body segments max_k ideal_len cycle)
                         (Py.range 1 segments) planner_init in
      ret ([0%Q]
           ++ map (fun k => Py.round3 (inject_Z k * cycle)) (ks st)
           ++ [Py.round3 audio_dur]).

Local Close Scope result_scope.


(** ** Formatting *)

Module Fmt.
Local Open Scope string_scope.

(** The decimal digits of a non-negative integer. *)
Definition digits (n : Z) : string :=
  DecimalString.NilZero.string_of_uint (N.to_uint (Z.to_N n)).

Fixpoint zeros (n : nat) : string :=
  match n with
  | O => ""
  | S n' => String "0" (zeros n')
  end.

(** [f"{z:0Wd}"]: sign, then zeros up to the width [W], then the digits. *)
Definition zero_padded (width : nat) (z : Z) : string :=
  let sign := if (z <? 0)%Z then "-" else "" in
  let body := digits (Z.abs z) in
  sign ++ zeros (width - String.length sign - String.length body)%nat ++ body.

(** [s.startswith(p)] *)
Definition startswith (p s : string) : bool := String.prefix p s.

(** [s.lstrip("/")], [s.rstrip("/")] and [s.strip("/")] *)
Fixpoint lstrip_slash (s : string) : string :=
  match s with
  | String "/" rest => lstrip_slash rest
  | _ => s
  end.

Fixpoint rstrip_slash (s : string) : string :=
  match s with
  | EmptyString => EmptyString
  | String c rest =>
      match rstrip_slash rest with
      | EmptyString => if Ascii.eqb c "/" then EmptyString else String c EmptyString
      | rest' => String c rest'
      end
  end.

Definition strip_slash (s : string) : string := rstrip_slash (lstrip_slash s).
End Fmt.

(** ** [hhmmss_ms] *)

Section Hhmmss.
Local Open Scope string_scope.

Definition ms_field (t : Q) : Z :=
  Py.round ((t - inject_Z (Py.int t)) * inject_Z 1000).

Definition hhmmss_ms (t : Q) : string :=
  let ms := ms_field t in
  let s := Py.int t mod 60 in
  let m := (Py.int t / 60) mod 60 in
  let h := Py.int t / 3600 in
  Fmt.zero_padded 2 h ++ ":" ++ Fmt.zero_padded 2 m ++ ":"
    ++ Fmt.zero_padded 2 s ++ "." ++ Fmt.zero_padded 3 ms.
End Hhmmss.

(** ** Collaborators and effects

    The HTTP client, the prober and transcoder subprocesses and the object
    store are outside the module.  A run records every call it makes to
    them, in order; what a collaborator answers may depend on everything
    that happened before. *)

Inductive event : Type :=
| ev_http_get (url : string)         (* requests.get(url, stream=True, ...) *)
| ev_ffprobe (path : string)         (* _run([FFPROBE, ..., path]) *)
| ev_ffmpeg (cmd : list string)      (* _run(cmd) in export_segments *)
| ev_put_object (key : string).      (* s3.put_object(Bucket=..., Key=key, ...) *)

Record path : Type := mk_path { parent : string; name : string }.

Definition path_str (p : path) : string := (parent p ++ "/" ++ name p)%string.

Record collaborators : Type := {
  FFMPEG : string;
  FFPROBE : string;
  R2_PREFIX_DEFAULT : string;
  (** the directory [tempfile.TemporaryDirectory()] yields *)
  td : string;
  (** the lengths of the chunks of the response body, or the exception of
      [requests.get] / [raise_for_status] *)
  http_get : list event -> string -> result (list Z);
  (** [float(_run([FFPROBE, ...]).strip())] *)
  ffprobe : list event -> string -> result Q;
  (** [_run(cmd)] for a transcoder command *)
  ffmpeg : list event -> list string -> result unit;
  (** [s3.put_object], with the body read from the local file *)
  put_object : list event -> string -> path -> result unit;
  (** [join_public_url(R2_PUBLIC_BASE_URL, key)] *)
  join_public_url : string -> string
}.

(** A computation that calls collaborators: it extends the record of
    calls and returns or raises. *)
Definition io (A : Type) : Type := list event -> result A * list event.

Module IO.
Definition ret {A} (a : A) : io A := fun log => (inr a, log).
Definition raise {A} (e : exn) : io A := fun log => (inl e, log).
Definition bind {A B} (m : io A) (k : A -> io B) : io B :=
  fun log =>
    match m log with
    | (inl e, log') => (inl e, log')
    | (inr a, log') => k a log'
    end.
(** A pure computation that may raise. *)
Definition lift {A} (r : result A) : io A := fun log => (r, log).
(** One call to a collaborator. *)
Definition call {A} (e : event) (answer : list event -> result A) : io A :=
  fun log => (answer log, log ++ [e]).
(** [try: m  except Exception as e: raise handler(e)] *)
Definition try_except {A} (m : io A) (handler : exn -> exn) : io A :=
  fun log =>
    match m log with
    | (inl e, log') => (inl (handler e), log')
    | (inr a, log') => (inr a, log')
    end.
End IO.

Declare Scope io_scope.
Delimit Scope io_scope with io.
Notation "x <- m ;; k" := (IO.bind m (fun x => k))
  (at level 100, m at next level, right associativity) : io_scope.

(** One entry of the list [process_audio_split] returns. *)
Record split_entry : Type := {
  audio : string;
  key : string;
  start_with_inverted : bool
}.

(** ** Paths

    [pathlib] keeps a path as its components.  Joining a directory with a
    relative string splits the string at "/", drops the empty components
    and the "." components, and appends what is left; the [name] of the
    result is its last component. *)

Module Posix.
Local Open Scope string_scope.

(** [s.split("/")], with [cur] the component being read. *)
Fixpoint components_from (cur s : string) : list string :=
  match s with
  | EmptyString => [cur]
  | String c rest =>
      if Ascii.eqb c "/" then cur :: components_from "" rest
      else components_from (cur ++ String c "") rest
  end.

Definition kept (c : string) : bool :=
  negb (String.eqb c "") && negb (String.eqb c ".").

Definition parts (s : string) : list string := filter kept (components_from "" s).

(** ["/" in s] *)
Fixpoint has_slash (s : string) : bool :=
  match s with
  | EmptyString => false
  | String c rest => Ascii.eqb c "/" || has_slash rest
  end.

(** [Path(dir) / s], for an [s] that does not start with "/" and has a
    component to keep. *)
Definition child (dir s : string) : path :=
  let ps := parts s in
  mk_path (String.concat "/" (dir :: removelast ps)) (last ps "").
End Posix.

(** [outdir / f"part_{i+1:03d}.{ext}"], the output file of segment [i]
    (counted from 0).  The extension is the caller's: one with a "/" in it
    makes the file name its last component only. *)
Definition segment_file (outdir ext : string) (i : Z) : path :=
  Posix.child outdir ("part_" ++ Fmt.zero_padded 3 (i + 1) ++ "." ++ ext)%string.

Section Splitter.
Variable env : collaborators.
Local Open Scope string_scope.
Local Open Scope io_scope.

Definition media_duration_seconds (p : string) : io Q :=
  IO.call (ev_ffprobe p) (fun log => ffprobe env log p).

Definition upload_file_to_r2 (local_path : path) (key : string) : io string :=
  _ <- IO.call (ev_put_object key) (fun log => put_object env log key local_path) ;;
  IO.ret (join_public_url env key).

(** The chunk loop of [download_to_path]; [total] counts the bytes seen. *)
Fixpoint write_chunks (max_bytes : Z) (chunks : list Z) (total : Z) : result unit :=
  match chunks with
  | [] => inr tt
  | chunk :: rest =>
      if (chunk =? 0)%Z then write_chunks max_bytes rest total
      else
        let total := (total + chunk)%Z in
        if (total >? max_bytes)%Z then inl (Raise ValueError (msg_too_large max_bytes))
        else write_chunks max_bytes rest total
  end.

Definition download_to_path (url : string) (dst : path) : io unit :=
  let max_bytes := 1500000000%Z in
  if negb (Fmt.startswith "http://" url || Fmt.startswith "https://" url)
  then IO.raise (Raise ValueError msg_url_scheme)
  else
    chunks <- IO.call (ev_http_get url) (fun log => http_get env log url) ;;
    IO.lift (write_chunks max_bytes chunks 0).

Definition codec_args (codec quality : string) : result (list string) :=
  if String.eqb codec "mp3" then inr ["-acodec"; "libmp3lame"; "-q:a"; quality]
  else if String.eqb codec "aac" then inr ["-acodec"; "aac"; "-b:a"; quality]
  else if String.eqb codec "copy" then inr ["-c"; "copy"]
  else inl (Raise ValueError msg_codec_export).

Section ExportSegments.
Variables (input_audio : string) (cuts : list Q) (outdir : string).
Variables (codec quality ext : string).

Definition export_cmd (i : Z) (out_file : path) : result (list string) :=
  let ss := nth (Z.to_nat i) cuts 0%Q in
  let to := nth (Z.to_nat (i + 1)) cuts 0%Q in
  let dur := Py.max0 (to - ss) in
  let cmd := [FFMPEG env; "-hide_banner"; "-y";
              "-ss"; hhmmss_ms ss; "-t"; hhmmss_ms dur;
              "-i"; input_audio; "-vn"] in
  match codec_args codec quality with
  | inl e => inl e
  | inr args => inr (cmd ++ args ++ ["-map_metadata"; "-1"; path_str out_file])%list
  end.

Fixpoint export_loop (idx : list Z) (outputs : list path) : io (list path) :=
  match idx with
  | [] => IO.ret outputs
  | i :: rest =>
      let out_file := segment_file outdir ext i in
      cmd <- IO.lift (export_cmd i out_file) ;;
      _ <- IO.call (ev_ffmpeg cmd) (fun log => ffmpeg env log cmd) ;;
      export_loop rest (outputs ++ [out_file])%list
  end.

Definition export_segments : io (list path) :=
  export_loop (Py.range 0 (Z.of_nat (List.length cuts) - 1)) [].
End ExportSegments.

Section PublishLoop.
Variables (cuts : list Q) (cycle : Q) (prefix : string) (first_inverted : bool).

Definition inverted_flag (idx : Z) : result bool :=
  let seg_start := nth (Z.to_nat (idx - 1)) cuts 0%Q in
  match Py.floordiv seg_start cycle with
  | inl e => inl e
  | inr q =>
      let clips_passed := Py.int q in
      let inverted := (clips_passed mod 2 =? 1)%Z in
      inr (if first_inverted then negb inverted else inverted)
  end.

Fixpoint publish_loop (files : list (Z * path)) (results : list split_entry)
  : io (list split_entry) :=
  match files with
  | [] => IO.ret results
  | (idx, local_path) :: rest =>
      let key := prefix ++ name local_path in
      public_url <- upload_file_to_r2 local_path key ;;
      inverted <- IO.lift (inverted_flag idx) ;;
      publish_loop rest
        (results ++ [{| audio := public_url; key := key;
                        start_with_inverted := inverted |}])%list
  end.
End PublishLoop.

(** [enumerate(l, start=1)] *)
Definition enumerate1 {A} (l : list A) : list (Z * A) :=
  combine (Py.range 1 (1 + Z.of_nat (List.length l))) l.

Definition supported_codec (codec : string) : bool :=
  String.eqb codec "mp3" || String.eqb codec "aac" || String.eqb codec "copy".

(** The cycle length: the caller's [video_duration], or the probed
    duration of the downloaded video. *)
Definition resolve_cycle (video_duration : option Q) (video_url : option string)
  : io Q :=
  match video_duration with
  | Some d => IO.ret d
  | None =>
      match video_url with
      | None | Some "" => IO.raise MissingCycleSourceError
      | Some url =>
          let video_path := mk_path (td env) "in_video" in
          _ <- download_to_path url video_path ;;
          IO.try_except (media_duration_seconds (path_str video_path))
            (fun e => Raise RuntimeError (msg_ffprobe_video (str_of e)))
      end
  end.

Definition process_audio_split
    (segments : Z) (audio_url : string) (codec quality ext : string)
    (first_inverted : bool) (video_duration : option Q)
    (video_url : option string) (r2_prefix : option string)
  : io (list split_entry) :=
  if (segments <? 1)%Z then IO.raise (Raise ValueError msg_segments)
  else if negb (supported_codec codec) then IO.raise (Raise ValueError msg_codec_api)
  else
    let audio_path := mk_path (td env) "in_audio" in
    _ <- download_to_path audio_url audio_path ;;
    audio_dur <- IO.try_except (media_duration_seconds (path_str audio_path))
                   (fun e => Raise RuntimeError (msg_ffprobe_audio (str_of e))) ;;
    cycle <- resolve_cycle video_duration video_url ;;
    if Qle_bool cycle 0 then IO.raise InvalidCycleError
    else
      cuts <- IO.try_except
                (IO.lift (compute_equalized_cycle_cuts audio_dur segments cycle))
                (fun e => Raise RuntimeError (str_of e)) ;;
      local_files <- IO.try_except
                       (export_segments (path_str audio_path) cuts
                          (td env ++ "/chunks") codec quality ext)
                       (fun e => Raise RuntimeError (msg_ffmpeg (str_of e))) ;;
      let prefix :=
        match r2_prefix with
        | None | Some "" => R2_PREFIX_DEFAULT env
        | Some p => Fmt.strip_slash p ++ "/"
        end in
      publish_loop cuts cycle prefix first_inverted (enumerate1 local_files) [].
End Splitter.

(** The two checks [process_audio_split] makes before it touches anything. *)
Definition is_validation_error (e : exn) : Prop :=
  e = Raise ValueError msg_segments \/ e = Raise ValueError msg_codec_api.

(** Collaborators that always succeed: every download is one chunk of
    1 KiB and every probe reports [duration] seconds.  Used to run the
    orchestrator on concrete requests. *)
Definition cooperative (duration : Q) : collaborators := {|
  FFMPEG := "ffmpeg";
  FFPROBE := "ffprobe";
  R2_PREFIX_DEFAULT := "chunks/";
  td := "/tmp/td";
  http_get := fun _ _ => inr [1024];
  ffprobe := fun _ _ => inr duration;
  ffmpeg := fun _ _ => inr tt;
  put_object := fun _ _ _ => inr tt;
  join_public_url := fun k => ("https://cdn.example/" ++ k)%string
|}.

(** ** Names for what a run builds

    The files, commands and keys the exporter and the orchestrator build,
    named so that statements about a whole run can refer to them. *)

Section Expected.
Variable env : collaborators.
Local Open Scope string_scope.

(** The transcoder command of segment [i]; the empty list stands for a
    codec [export_segments] refuses. *)
Definition segment_cmd (input_audio : string) (cuts : list Q)
    (outdir codec quality ext : string) (i : Z) : list string :=
  match export_cmd env input_audio cuts codec quality i (segment_file outdir ext i) with
  | inr cmd => cmd
  | inl _ => []
  end.

(** [(r2_prefix.strip("/") + "/") if r2_prefix else R2_PREFIX_DEFAULT] *)
Definition key_prefix (r2_prefix : option string) : string :=
  match r2_prefix with
  | None | Some "" => R2_PREFIX_DEFAULT env
  | Some p => Fmt.strip_slash p ++ "/"
  end.
End Expected.

(** The same entry with the phase flag negated. *)
Definition flip_phase (e : split_entry) : split_entry :=
  {| audio := audio e; key := key e;
     start_with_inverted := negb (start_with_inverted e) |}.

(** The outcome of a split with every phase flag negated: the same error
    or the flipped entries, and the same record of calls. *)
Definition flip_outcome (o : result (list split_entry) * list event)
  : result (list split_entry) * list event :=
  (match fst o with
   | inl e => inl e
   | inr out => inr (map flip_phase out)
   end, snd o).

(** An event that is not a request for a URL outside http(s). *)
Definition http_only (e : event) : Prop :=
  match e with
  | ev_http_get url =>
      Fmt.startswith "http://" url || Fmt.startswith "https://" url = true
  | _ => True
  end.

(** The calls a split of [audio_url] may make: requests for the audio
    URL, and for the video URL when no [video_duration] was given, both
    http(s) only; probes of the two downloaded files; transcoder commands
    and uploads. *)
Definition allowed_call (env : collaborators) (audio_url : string)
    (video_duration : option Q) (video_url : option string) (e : event) : Prop :=
  match e with
  | ev_http_get url =>
      http_only e
      /\ (url = audio_url \/ (video_duration = None /\ video_url = Some url))
  | ev_ffprobe p =>
      p = path_str (mk_path (td env) "in_audio")
      \/ (video_duration = None /\ p = path_str (mk_path (td env) "in_video"))
  | ev_ffmpeg _ => True
  | ev_put_object _ => True
  end.

(** A computation that only adds calls satisfying [P] to the record. *)
Definition only_adds {A : Type} (P : event -> Prop) (m : io A) : Prop :=
  forall log, exists new, snd (m log) = log ++ new /\ Forall P new.

(** Collaborators like [cooperative], except that the transcoder fails
    once the record holds [n] calls or more. *)
Definition transcoder_fails_after (n : nat) (duration : Q) : collaborators := {|
  FFMPEG := "ffmpeg";
  FFPROBE := "ffprobe";
  R2_PREFIX_DEFAULT := "chunks/";
  td := "/tmp/td";
  http_get := fun _ _ => inr [1024];
  ffprobe := fun _ _ => inr duration;
  ffmpeg := fun log _ =>
    if (n <=? List.length log)%nat
    then inl (Raise RuntimeError (msg_text "ffmpeg: exit status 1"))
    else inr tt;
  put_object := fun _ _ _ => inr tt;
  join_public_url := fun k => ("https://cdn.example/" ++ k)%string
|}.

(** Reading an unsigned decimal field back. *)
Definition read_decimal (s : string) : option Z :=
  option_map (fun d => Z.of_N (N.of_uint d)) (NilZero.uint_of_string s).

(** ** [join_public_url]

    Strings stand for their UTF-8 bytes, so [urllib.parse.quote], which
    encodes a [str] to UTF-8 and then works byte by byte, is a map over the
    characters; "/" is a single byte that occurs in no multi-byte
    sequence, so splitting and stripping at "/" act on bytes as they do on
    code points. *)

Module Url.
Local Open Scope string_scope.

Definition between (lo hi c : ascii) : bool :=
  ((nat_of_ascii lo <=? nat_of_ascii c) && (nat_of_ascii c <=? nat_of_ascii hi))%nat.

(** The characters [quote] never encodes: letters, digits and [_.-~]. *)
Definition always_safe (c : ascii) : bool :=
  between "A" "Z" c || between "a" "z" c || between "0" "9" c
  || Ascii.eqb c "_" || Ascii.eqb c "." || Ascii.eqb c "-" || Ascii.eqb c "~".

(** [quote(part)] keeps these, since its default [safe] is "/". *)
Definition kept (c : ascii) : bool := always_safe c || Ascii.eqb c "/".

Definition hex_digit (n : nat) : ascii :=
  match String.get n "0123456789ABCDEF" with
  | Some c => c
  | None => "0"%char
  end.

(** ['%{:02X}'.format(byte)] *)
Definition percent (c : ascii) : string :=
  let n := nat_of_ascii c in
  String "%" (String (hex_digit (n / 16)) (String (hex_digit (n mod 16)) "")).

Fixpoint quote (s : string) : string :=
  match s with
  | "" => ""
  | String c rest => (if kept c then String c "" else percent c) ++ quote rest
  end.

(** [s.split("/")]: never empty, one more part than there are slashes. *)
Fixpoint split_slash (s : string) : list string :=
  match s with
  | "" => [""]
  | String c rest =>
      match split_slash rest with
      | [] => [String c ""]
      | part :: parts =>
          if Ascii.eqb c "/" then "" :: part :: parts
          else String c part :: parts
      end
  end.

(** ["/".join(parts)] *)
Fixpoint join_slash (parts : list string) : string :=
  match parts with
  | [] => ""
  | [part] => part
  | part :: rest => part ++ "/" ++ join_slash rest
  end.

Definition join_public_url (base key : string) : string :=
  let clean := Fmt.rstrip_slash base in
  let safe_key := join_slash (map quote (split_slash key)) in
  clean ++ "/" ++ safe_key.

(** Reading a percent-encoded string back, used to tell encoded keys
    apart. *)
Definition hex_value (c : ascii) : nat :=
  let n := nat_of_ascii c in
  if between "0" "9" c then n - 48
  else if between "A" "F" c then n - 55
  else if between "a" "f" c then n - 87
  else 0.

Fixpoint unquote (s : string) : string :=
  match s with
  | "" => ""
  | String c rest =>
      match rest with
      | String h (String l rest') =>
          if Ascii.eqb c "%"
          then String (ascii_of_nat (16 * hex_value h + hex_value l)) (unquote rest')
          else String c (unquote rest)
      | _ => String c (unquote rest)
      end
  end.
End Url.

(** ** The video merger ([src/video_merger.py])

    The module has its own copies of [_run], [download_to_path] (with a
    cap of 8 000 000 000 bytes), [upload_file_to_r2] and [join_public_url];
    they raise what the splitter's copies raise.  [merge_videos] adds one
    error of its own and two texts that wrap the transcoder's. *)

Inductive merge_message : Type :=
| msg_two_urls                        (* "Proporciona al menos dos URLs en 'videos'." *)
| msg_of (m : message)                (* a text of the shared helpers *)
| msg_copy_failed (m : merge_message) (* f"ffmpeg no pudo unir en modo copy, prueba reencode=True: {e}" *)
| msg_join_failed (m : merge_message). (* f"ffmpeg no pudo unir los MP4: {e}" *)

Inductive merge_exn : Type :=
| MRaise (c : exn_class) (m : merge_message).

Definition merge_exn_of (e : exn) : merge_exn :=
  match e with Raise c m => MRaise c (msg_of m) end.

(** [str(e)] *)
Definition merge_str_of (e : merge_exn) : merge_message :=
  match e with MRaise _ m => m end.

(** What [merge_videos] needs beyond the splitter's collaborators. *)
Record merge_collaborators : Type := {
  shared : collaborators;
  (** [uuid4().hex] *)
  uuid4_hex : list event -> string;
  (** [out_path.stat().st_size] *)
  st_size : list event -> path -> Z
}.

(** The dictionary [merge_videos] returns. *)
Record merge_result : Type := {
  mr_url : string;
  mr_key : string;
  mr_size_bytes : Z;
  mr_content_type : string
}.

Definition mio (A : Type) : Type := list event -> (merge_exn + A) * list event.

Module MIO.
Definition ret {A} (a : A) : mio A := fun log => (inr a, log).
Definition raise {A} (e : merge_exn) : mio A := fun log => (inl e, log).
Definition bind {A B} (m : mio A) (k : A -> mio B) : mio B :=
  fun log =>
    match m log with
    | (inl e, log') => (inl e, log')
    | (inr a, log') => k a log'
    end.
(** A pure helper of the shared kind, which may raise. *)
Definition lift {A} (r : result A) : mio A :=
  fun log =>
    match r with
    | inl e => (inl (merge_exn_of e), log)
    | inr a => (inr a, log)
    end.
(** One call to a collaborator. *)
Definition call {A} (e : event) (answer : list event -> result A) : mio A :=
  fun log =>
    match answer log with
    | inl x => (inl (merge_exn_of x), log ++ [e])
    | inr a => (inr a, log ++ [e])
    end.
(** Reading something that is not a call: a fresh identifier, a file size. *)
Definition read {A} (f : list event -> A) : mio A := fun log => (inr (f log), log).
(** [try: m  except Exception as e: raise handler(e)] *)
Definition try_except {A} (m : mio A) (handler : merge_exn -> merge_exn) : mio A :=
  fun log =>
    match m log with
    | (inl e, log') => (inl (handler e), log')
    | (inr a, log') => (inr a, log')
    end.
End MIO.

Declare Scope mio_scope.
Delimit Scope mio_scope with mio.
Notation "x <- m ;; k" := (MIO.bind m (fun x => k))
  (at level 100, m at next level, right associativity) : mio_scope.

Module Merger.
Section Merger.
Variable menv : merge_collaborators.
Local Open Scope string_scope.
Local Open Scope mio_scope.

Let env := shared menv.

Definition download_to_path (url : string) (dst : path) : mio unit :=
  let max_bytes := 8000000000%Z in
  if negb (Fmt.startswith "http://" url || Fmt.startswith "https://" url)
  then MIO.raise (MRaise ValueError (msg_of msg_url_scheme))
  else
    chunks <- MIO.call (ev_http_get url) (fun log => http_get env log url) ;;
    MIO.lift (write_chunks max_bytes chunks 0).

Definition upload_file_to_r2 (local_path : path) (key : string) : mio string :=
  _ <- MIO.call (ev_put_object key) (fun log => put_object env log key local_path) ;;
  MIO.ret (join_public_url env key).

(** The text [_write_concat_list_file] writes: one line per input. *)
Definition concat_list (paths : list path) : string :=
  String.concat "" (map (fun p => "file '" ++ path_str p ++ "'" ++ String "010" "") paths).

(** [td_path / f"in_{i:03d}.mp4"] *)
Definition input_file (i : Z) : path :=
  mk_path (td env) ("in_" ++ Fmt.zero_padded 3 i ++ ".mp4").

Fixpoint download_loop (inputs : list (Z * string)) (local_inputs : list path)
  : mio (list path) :=
  match inputs with
  | [] => MIO.ret local_inputs
  | (i, url) :: rest =>
      let p := input_file i in
      _ <- download_to_path url p ;;
      download_loop rest (local_inputs ++ [p])%list
  end.

Definition merge_cmd (reencode : bool) (crf preset aac_bitrate : string)
    (list_file out_path : path) : list string :=
  if reencode then
    [FFMPEG env; "-hide_banner"; "-y";
     "-f"; "concat"; "-safe"; "0";
     "-i"; path_str list_file;
     "-c:v"; "libx264"; "-preset"; preset; "-crf"; crf;
     "-c:a"; "aac"; "-b:a"; aac_bitrate;
     "-movflags"; "+faststart";
     path_str out_path]
  else
    [FFMPEG env; "-hide_banner"; "-y";
     "-f"; "concat"; "-safe"; "0";
     "-i"; path_str list_file;
     "-c"; "copy";
     "-movflags"; "+faststart";
     path_str out_path].

Definition merge_videos
    (videos : list string) (output_key_prefix : option string)
    (reencode : bool) (crf preset aac_bitrate : string) : mio merge_result :=
  if (List.length videos <? 2)%nat then MIO.raise (MRaise ValueError msg_two_urls)
  else
    local_inputs <- download_loop (enumerate1 videos) [] ;;
    let list_file := mk_path (td env) "inputs.txt" in
    hex <- MIO.read (uuid4_hex menv) ;;
    let out_name := "joined_" ++ hex ++ ".mp4" in
    let out_path := mk_path (td env) out_name in
    let cmd := merge_cmd reencode crf preset aac_bitrate list_file out_path in
    _ <- MIO.try_except
           (MIO.call (ev_ffmpeg cmd) (fun log => ffmpeg env log cmd))
           (fun e => MRaise RuntimeError
                       (if reencode then msg_join_failed (merge_str_of e)
                        else msg_copy_failed (merge_str_of e))) ;;
    let key := key_prefix env output_key_prefix ++ out_name in
    public_url <- upload_file_to_r2 out_path key ;;
    size <- MIO.read (fun log => st_size menv log out_path) ;;
    MIO.ret {| mr_url := public_url; mr_key := key;
               mr_size_bytes := size; mr_content_type := "video/mp4" |}.
End Merger.
End Merger.

(** Collaborators for the merger: the splitter's, a fixed identifier and a
    fixed output size. *)
Definition merge_cooperative (sh : collaborators) : merge_collaborators := {|
  shared := sh;
  uuid4_hex := fun _ => "0123456789abcdef0123456789abcdef"%string;
  st_size := fun _ _ => 4096
|}.

(** ** The request handler ([src/handler.py])

    Requests are JSON values.  A dictionary is the list of its items, read
    by its first item with the key.  The builtins the handler applies to
    request values ([int], [float], [str], [str.strip], [str.lower]) are
    parameters: [int] and [float] answer a value or the text of the
    exception they raise. *)

#[warnings="-register-all"]
Inductive pyval : Type :=
| PNone
| PBool (b : bool)
| PInt (z : Z)
| PFloat (q : Q)
| PStr (s : string)
| PList (l : list pyval)
| PDict (d : list (string * pyval)).

Record builtins : Type := {
  py_int : pyval -> string + Z;
  py_float : pyval -> string + Q;
  py_str : pyval -> string;
  py_strip : string -> string;
  py_lower : string -> string
}.

Inductive error_code : Type := BadRequest | InternalError.

Inductive handler_message : Type :=
| hm_missing_task        (* "Falta 'task' ('split_audio' o 'merge_videos')." *)
| hm_missing_segments    (* "Falta 'segments' (int >= 1)." *)
| hm_missing_audio_url   (* "Falta 'audio_url' (http/https)." *)
| hm_videos              (* "Proporciona al menos dos URLs en 'videos' (lista)." *)
| hm_bad_task            (* "Valor de 'task' invalido. Usa 'split_audio' o 'merge_videos'." *)
| hm_conversion (text : string)  (* f"{type(e).__name__}: {e}" for [int] or [float] *)
| hm_split (e : exn)             (* the same for an exception of [process_audio_split] *)
| hm_merge (e : merge_exn).      (* the same for an exception of [merge_videos] *)

(** The dictionary the handler returns. *)
Inductive response : Type :=
| ok_split (task : string) (result : list split_entry)
| ok_merge (task : string) (result : merge_result)
| error_response (code : error_code) (message : handler_message).

(** A call of the handler returns a response, or lets the [AttributeError]
    of [(...).strip()] through. *)
Inductive outcome : Type :=
| Returns (r : response)
| RaisesAttributeError.

Module Handler.
Section Handler.
Variable bi : builtins.
Variable menv : merge_collaborators.
Local Open Scope string_scope.

(** [bool(v)] *)
Definition truthy (v : pyval) : bool :=
  match v with
  | PNone => false
  | PBool b => b
  | PInt z => negb (z =? 0)%Z
  | PFloat q => negb (Qeq_bool q 0)
  | PStr s => negb (String.eqb s "")
  | PList l => match l with [] => false | _ => true end
  | PDict d => match d with [] => false | _ => true end
  end.

(** [d.get(k)], [None] standing for a missing key. *)
Fixpoint get (k : string) (d : list (string * pyval)) : option pyval :=
  match d with
  | [] => None
  | (k', v) :: rest => if String.eqb k k' then Some v else get k rest
  end.

(** [d.get(k, default)] *)
Definition get_default (k : string) (d : list (string * pyval)) (default : pyval)
  : pyval :=
  match get k d with
  | Some v => v
  | None => default
  end.

Definition _payload_from_event (event_value : pyval) : list (string * pyval) :=
  match event_value with
  | PDict d =>
      match get "input" d with
      | Some (PDict inner) => inner
      | _ => d
      end
  | _ => []
  end.

Definition _as_bool (v : option pyval) (default : bool) : bool :=
  match v with
  | None | Some PNone => default
  | Some (PBool b) => b
  | Some (PInt z) => truthy (PInt z)
  | Some (PFloat q) => truthy (PFloat q)
  | Some (PStr s) =>
      let t := py_lower bi (py_strip bi s) in
      String.eqb t "1" || String.eqb t "true" || String.eqb t "yes"
      || String.eqb t "y" || String.eqb t "on"
  | Some _ => default
  end.

(** [f(data[k]) if data.get(k) else None] *)
Definition if_truthy {A} (k : string) (d : list (string * pyval)) (f : pyval -> A)
  : option A :=
  match get k d with
  | Some v => if truthy v then Some (f v) else None
  | None => None
  end.

Definition split_audio (task : string) (data : list (string * pyval))
  : list event -> outcome * list event :=
  fun log =>
    match get "segments" data with
    | None => (Returns (error_response BadRequest hm_missing_segments), log)
    | Some segments_v =>
        match get "audio_url" data with
        | None => (Returns (error_response BadRequest hm_missing_audio_url), log)
        | Some audio_url_v =>
            match py_int bi segments_v with
            | inl text => (Returns (error_response InternalError (hm_conversion text)), log)
            | inr segments =>
                let audio_url := py_str bi audio_url_v in
                let codec := py_str bi (get_default "codec" data (PStr "mp3")) in
                let quality := py_str bi (get_default "quality" data (PStr "2")) in
                let ext := py_str bi (get_default "ext" data (PStr "mp3")) in
                let first_inverted := _as_bool (get "first_inverted" data) false in
                let video_duration :=
                  match get "video_duration" data with
                  | None | Some PNone => inr None
                  | Some v =>
                      match py_float bi v with
                      | inl text => inl text
                      | inr q => inr (Some q)
                      end
                  end in
                match video_duration with
                | inl text =>
                    (Returns (error_response InternalError (hm_conversion text)), log)
                | inr video_duration =>
                    let video_url := if_truthy "video_url" data (py_str bi) in
                    let r2_prefix :=
                      if_truthy "r2_prefix" data
                        (fun v => Fmt.strip_slash (py_str bi v) ++ "/") in
                    match process_audio_split (shared menv) segments audio_url codec
                            quality ext first_inverted video_duration video_url
                            r2_prefix log with
                    | (inr result, log') => (Returns (ok_split task result), log')
                    | (inl e, log') =>
                        (Returns (error_response InternalError (hm_split e)), log')
                    end
                end
            end
        end
    end.

Definition merge_videos (task : string) (data : list (string * pyval))
  : list event -> outcome * list event :=
  fun log =>
    match get "videos" data with
    | Some (PList vids) =>
        if (List.length vids <? 2)%nat
        then (Returns (error_response BadRequest hm_videos), log)
        else
          let videos := map (py_str bi) vids in
          let output_key_prefix :=
            if_truthy "output_key_prefix" data
              (fun v => Fmt.strip_slash (py_str bi v)) in
          let reencode := _as_bool (get "reencode" data) true in
          let crf := py_str bi (get_default "crf" data (PStr "20")) in
          let preset := py_str bi (get_default "preset" data (PStr "veryfast")) in
          let aac_bitrate := py_str bi (get_default "aac_bitrate" data (PStr "192k")) in
          match Merger.merge_videos menv videos output_key_prefix reencode crf preset
                  aac_bitrate log with
          | (inr result, log') => (Returns (ok_merge task result), log')
          | (inl e, log') => (Returns (error_response InternalError (hm_merge e)), log')
          end
    | _ => (Returns (error_response BadRequest hm_videos), log)
    end.

(** [data.get("task") or ""] *)
Definition task_value (data : list (string * pyval)) : pyval :=
  match get "task" data with
  | Some v => if truthy v then v else PStr ""
  | None => PStr ""
  end.

Definition rp_handler (event_value : pyval) : list event -> outcome * list event :=
  fun log =>
    let data := _payload_from_event event_value in
    match task_value data with
    | PStr s =>
        let task := py_strip bi s in
        if String.eqb task "" then (Returns (error_response BadRequest hm_missing_task), log)
        else if String.eqb task "split_audio" then split_audio task data log
        else if String.eqb task "merge_videos" then merge_videos task data log
        else (Returns (error_response BadRequest hm_bad_task), log)
    | _ => (RaisesAttributeError, log)
    end.
End Handler.
End Handler.

(** A stand-in for the builtins, used to run the handler on examples.  It
    agrees with Python on the values the examples use ([int] of an
    integer, a boolean or a float, [float] of a number, [str] of a string,
    stripping and lowering of plain lower-case words) and answers
    anything else crudely. *)
Definition sample_builtins : builtins := {|
  py_int := fun v =>
    match v with
    | PInt z => inr z
    | PBool b => inr (if b then 1 else 0)
    | PFloat q => inr (Py.int q)
    | _ => inl "TypeError"%string
    end;
  py_float := fun v =>
    match v with
    | PFloat q => inr q
    | PInt z => inr (inject_Z z)
    | _ => inl "TypeError"%string
    end;
  py_str := fun v => match v with PStr s => s | _ => "?"%string end;
  py_strip := fun s => s;
  py_lower := fun s => s
|}.

(** How the handler reports the outcome of a split. *)
Definition split_response (task : string)
    (o : result (list split_entry) * list event) : outcome * list event :=
  match o with
  | (inr result, log') => (Returns (ok_split task result), log')
  | (inl e, log') => (Returns (error_response InternalError (hm_split e)), log')
  end.

(** How the handler reports the outcome of a merge. *)
Definition merge_response (task : string)
    (o : (merge_exn + merge_result) * list event) : outcome * list event :=
  match o with
  | (inr result, log') => (Returns (ok_merge task result), log')
  | (inl e, log') => (Returns (error_response InternalError (hm_merge e)), log')
  end.

(** * The same code in binary64

    Python's [float] is an IEEE 754 binary64 number.  [Module B64] embeds
    the planner, the formatter and the orchestrator once more, this time
    over the kernel's binary64 floats: subtraction, multiplication and
    division are the hardware operations, and what Python adds to them
    ([//], [round], [int], the conversion of an [int] operand) follows
    CPython.  Overflow to infinity, NaN and the exceptions they lead to are
    part of this reading. *)

Module B64.
Definition float : Set := PrimFloat.float.
Local Open Scope result_scope.

Definition zero : float := PrimFloat.zero.
Definition one : float := PrimFloat.one.

(** [x == 0.0], true of both zeros. *)
Definition is_zero (x : float) : bool := PrimFloat.eqb x zero.

(** The exact value of a finite float. *)
Definition to_Q (x : float) : option Q :=
  match FloatOps.Prim2SF x with
  | SpecFloat.S754_zero _ => Some 0%Q
  | SpecFloat.S754_finite s m e =>
      Some (Qred ((if s then -1 else 1) * inject_Z (Zpos m) * Qpower 2 e))
  | _ => None
  end.

(** The float nearest to a rational, ties to even; infinity beyond the
    range.  The quotient is cut to at least 55 bits with a sticky bit for
    the rest, which the standard rounding of [SpecFloat] then rounds to
    53. *)
Definition of_Q (q : Q) : float :=
  let n := Qnum q in
  let d := Zpos (Qden q) in
  let a := Z.abs n in
  if a =? 0 then zero
  else
    let s := Z.max 0 (55 + Z.log2_up d - Z.log2 a) in
    let num := a * 2 ^ s in
    let m := 2 * (num / d) + (if num mod d =? 0 then 0 else 1) in
    FloatOps.SF2Prim
      (SpecFloat.binary_normalize FloatOps.prec FloatOps.emax
         (if n <? 0 then - m else m) (- s - 1) false).

(** The conversion of an [int] operand of a float operation. *)
Definition of_int (z : Z) : result float :=
  let x := of_Q (inject_Z z) in
  if PrimFloat.is_infinity x then raise (Raise OverflowError msg_int_too_large)
  else ret x.

(** The exact value a float-to-int conversion starts from. *)
Definition finite_value (x : float) : result Q :=
  match to_Q x with
  | Some q => ret q
  | None =>
      if PrimFloat.is_nan x then raise (Raise ValueError msg_nan_to_int)
      else raise (Raise OverflowError msg_inf_to_int)
  end.

(** [int(x)] *)
Definition int (x : float) : result Z := q <- finite_value x ;; ret (Py.int q).

(** [round(x)]: the integer nearest to the exact value, ties to even. *)
Definition round (x : float) : result Z := q <- finite_value x ;; ret (Py.round q).

(** [round(x, 3)]: the float nearest to the exact value of [x] rounded to
    three decimals, ties to even; zeros, infinities and NaN are returned
    as they are. *)
Definition round3 (x : float) : float :=
  match to_Q x with
  | Some q =>
      if Qeq_bool q 0 then x
      else
        let r := of_Q (inject_Z (Py.round (Qabs q * 1000)) / 1000) in
        if Qle_bool 0 q then r else PrimFloat.opp r
  | None => x
  end.

(** C's [floor] *)
Definition floor (x : float) : float :=
  match to_Q x with
  | Some q => if Qeq_bool q 0 then x else of_Q (inject_Z (Qfloor q))
  | None => x
  end.

(** C's [fmod]: the exact remainder of the truncated division, with the
    sign of [x]. *)
Definition fmod (x y : float) : float :=
  match to_Q x, to_Q y with
  | Some a, Some b =>
      if Qeq_bool b 0 then PrimFloat.nan
      else
        let r := (a - b * inject_Z (Py.int (a / b)))%Q in
        if Qeq_bool r 0
        then (if PrimFloat.get_sign x then PrimFloat.opp zero else zero)
        else of_Q r
  | Some _, None => if PrimFloat.is_nan y then PrimFloat.nan else x
  | None, _ => PrimFloat.nan
  end.

Definition half : float := PrimFloat.div one PrimFloat.two.

(** [vx // wx], as CPython's [float_floor_div] computes it: the exact
    remainder [mod = fmod(vx, wx)], the quotient [(vx - mod) / wx] in
    floating point, one less when the remainder and the divisor differ in
    sign, then snapped to an integer: its floor, or its floor plus one
    when it lies more than 0.5 above it; a zero quotient takes the sign
    of [vx / wx]. *)
Definition floordiv (vx wx : float) : result float :=
  if is_zero wx then raise (Raise ZeroDivisionError msg_float_floor_div)
  else
    let mod_ := fmod vx wx in
    let div := PrimFloat.div (PrimFloat.sub vx mod_) wx in
    let div :=
      if negb (is_zero mod_)
      then if xorb (PrimFloat.ltb wx zero) (PrimFloat.ltb mod_ zero)
           then PrimFloat.sub div one else div
      else div in
    if negb (is_zero div)
    then
      let floordiv := floor div in
      ret (if PrimFloat.ltb half (PrimFloat.sub div floordiv)
           then PrimFloat.add floordiv one else floordiv)
    else ret (PrimFloat.mul zero (PrimFloat.div vx wx)).

(** [x / y] *)
Definition truediv (x y : float) : result float :=
  if is_zero y then raise (Raise ZeroDivisionError msg_float_div)
  else ret (PrimFloat.div x y).

(** [max(0.0, x)] *)
Definition max0 (x : float) : float := if PrimFloat.ltb zero x then x else zero.

(** ** The cycle-cut planner *)

(** The literal [1e-3]. *)
Definition eps : float := of_Q (1 # 1000).

Section PlannerLoop.
Variables (segments max_k : Z) (ideal_len cycle : float).

(** [int(round(i * ideal_len / cycle))] *)
Definition ideal_k (i : Z) : result Z :=
  fi <- of_int i ;;
  q <- truediv (PrimFloat.mul fi ideal_len) cycle ;;
  round q.

(** The value appended to [ks] in iteration [i], given the ideal index. *)
Definition chosen_k (ideal : Z) (i : Z) (st : planner_state) : Z :=
  let min_allowed' :=
    if collapses segments max_k i st then max_allowed segments max_k i
    else min_allowed st in
  Z.max (Z.min ideal (max_allowed segments max_k i)) min_allowed'.

Definition planner_body (i : Z) (st : planner_state) : result planner_state :=
  ideal <- ideal_k i ;;
  let k := chosen_k ideal i st in
  ret {| k_prev := k; ks := ks st ++ [k] |}.

(** The index an iteration chooses, when its ideal index is computed. *)
Definition chosen_in (it : Z * planner_state) : result Z :=
  ideal <- ideal_k (fst it) ;; ret (chosen_k ideal (fst it) (snd it)).
End PlannerLoop.

(** [round(k * cycle, 3)] *)
Definition cut_at (cycle : float) (k : Z) : result float :=
  fk <- of_int k ;; ret (round3 (PrimFloat.mul fk cycle)).

(** [max_k = int((audio_dur - eps) // cycle)] *)
Definition feasibility (audio_dur cycle : float) : result Z :=
  q <- floordiv (PrimFloat.sub audio_dur eps) cycle ;; int q.

(** [ideal_len = audio_dur / segments] *)
Definition ideal_length (audio_dur : float) (segments : Z) : result float :=
  n <- of_int segments ;; truediv audio_dur n.

Definition compute_equalized_cycle_cuts
    (audio_dur : float) (segments : Z) (cycle : float) : result (list float) :=
  if segments =? 1 then ret [zero; audio_dur]
  else
    max_k <- feasibility audio_dur cycle ;;
    if max_k <? segments - 1 then raise InsufficientCyclesError
    else
      ideal_len <- ideal_length audio_dur segments ;;
      st <- for_each_r (planner_body segments max_k ideal_len cycle)
              (Py.range 1 segments) planner_init ;;
      interior <- map_r (cut_at cycle) (ks st) ;;
      ret ([zero] ++ interior ++ [round3 audio_dur]).

(** ** [hhmmss_ms] *)

Section Hhmmss.
Local Open Scope string_scope.

(** [int(round((t - int(t)) * 1000))] *)
Definition ms_field (t : float) : result Z :=
  n <- int t ;;
  fn <- of_int n ;;
  round (PrimFloat.mul (PrimFloat.sub t fn) (of_Q 1000)).

Definition hhmmss_ms (t : float) : result string :=
  ms <- ms_field t ;;
  n <- int t ;;
  let s := n mod 60 in
  let m := (n / 60) mod 60 in
  let h := n / 3600 in
  ret (Fmt.zero_padded 2 h ++ ":" ++ Fmt.zero_padded 2 m ++ ":"
       ++ Fmt.zero_padded 2 s ++ "." ++ Fmt.zero_padded 3 ms).
End Hhmmss.

(** ** The exporter and the orchestrator *)

Section Splitter.
Variable env : collaborators.
Local Open Scope string_scope.

(** [float(out)]: the prober answers with the number it printed, which
    [float] rounds to the nearest float (a prober that prints "inf" or
    "nan" is left out). *)
Definition media_duration_seconds (p : string) : io float :=
  IO.call (ev_ffprobe p)
    (fun log => match ffprobe env log p with
                | inl e => inl e
                | inr q => inr (of_Q q)
                end).

Section ExportSegments.
Variables (input_audio : string) (cuts : list float) (outdir : string).
Variables (codec quality ext : string).

Definition export_cmd (i : Z) (out_file : path) : result (list string) :=
  let ss := nth (Z.to_nat i) cuts zero in
  let to := nth (Z.to_nat (i + 1)) cuts zero in
  let dur := max0 (PrimFloat.sub to ss) in
  ss_text <- hhmmss_ms ss ;;
  dur_text <- hhmmss_ms dur ;;
  let cmd := [FFMPEG env; "-hide_banner"; "-y";
              "-ss"; ss_text; "-t"; dur_text;
              "-i"; input_audio; "-vn"] in
  args <- codec_args codec quality ;;
  ret (cmd ++ args ++ ["-map_metadata"; "-1"; path_str out_file])%list.

Fixpoint export_loop (idx : list Z) (outputs : list path) : io (list path) :=
  match idx with
  | [] => IO.ret outputs
  | i :: rest =>
      let out_file := segment_file outdir ext i in
      IO.bind (IO.lift (export_cmd i out_file)) (fun cmd =>
      IO.bind (IO.call (ev_ffmpeg cmd) (fun log => ffmpeg env log cmd)) (fun _ =>
      export_loop rest (outputs ++ [out_file])%list))
  end.

Definition export_segments : io (list path) :=
  export_loop (Py.range 0 (Z.of_nat (List.length cuts) - 1)) [].
End ExportSegments.

Section PublishLoop.
Variables (cuts : list float) (cycle : float) (prefix : string) (first_inverted : bool).

(** [int(seg_start // cycle) % 2 == 1], negated when [first_inverted]. *)
Definition inverted_flag (idx : Z) : result bool :=
  let seg_start := nth (Z.to_nat (idx - 1)) cuts zero in
  q <- floordiv seg_start cycle ;;
  clips_passed <- int q ;;
  let inverted := (clips_passed mod 2 =? 1)%Z in
  ret (if first_inverted then negb inverted else inverted).

Fixpoint publish_loop (files : list (Z * path)) (results : list split_entry)
  : io (list split_entry) :=
  match files with
  | [] => IO.ret results
  | (idx, local_path) :: rest =>
      let key := prefix ++ name local_path in
      IO.bind (upload_file_to_r2 env local_path key) (fun public_url =>
      IO.bind (IO.lift (inverted_flag idx)) (fun inverted =>
      publish_loop rest
        (results ++ [{| audio := public_url; key := key;
                        start_with_inverted := inverted |}])%list))
  end.
End PublishLoop.

Definition resolve_cycle (video_duration : option float) (video_url : option string)
  : io float :=
  match video_duration with
  | Some d => IO.ret d
  | None =>
      match video_url with
      | None | Some "" => IO.raise MissingCycleSourceError
      | Some url =>
          let video_path := mk_path (td env) "in_video" in
          IO.bind (download_to_path env url video_path) (fun _ =>
          IO.try_except (media_duration_seconds (path_str video_path))
            (fun e => Raise RuntimeError (msg_ffprobe_video (str_of e))))
      end
  end.

Definition process_audio_split
    (segments : Z) (audio_url : string) (codec quality ext : string)
    (first_inverted : bool) (video_duration : option float)
    (video_url : option string) (r2_prefix : option string)
  : io (list split_entry) :=
  if (segments <? 1)%Z then IO.raise (Raise ValueError msg_segments)
  else if negb (supported_codec codec) then IO.raise (Raise ValueError msg_codec_api)
  else
    let audio_path := mk_path (td env) "in_audio" in
    IO.bind (download_to_path env audio_url audio_path) (fun _ =>
    IO.bind (IO.try_except (media_duration_seconds (path_str audio_path))
               (fun e => Raise RuntimeError (msg_ffprobe_audio (str_of e))))
            (fun audio_dur =>
    IO.bind (resolve_cycle video_duration video_url) (fun cycle =>
    if PrimFloat.leb cycle zero then IO.raise InvalidCycleError
    else
      IO.bind (IO.try_except
                 (IO.lift (compute_equalized_cycle_cuts audio_dur segments cycle))
                 (fun e => Raise RuntimeError (str_of e))) (fun cuts =>
      IO.bind (IO.try_except
                 (export_segments (path_str audio_path) cuts
                    (td env ++ "/chunks") codec quality ext)
                 (fun e => Raise RuntimeError (msg_ffmpeg (str_of e))))
              (fun local_files =>
      publish_loop cuts cycle (key_prefix env r2_prefix) first_inverted
        (enumerate1 local_files) []))))).
End Splitter.

(** The start of segment [i] of a plan and its phase flag, as
    [process_audio_split] computes it from the plan. *)
Definition phase_of (cuts : list float) (cycle : float) (i : nat) : result bool :=
  inverted_flag cuts cycle false (Z.of_nat i + 1).

(** The transcoder command of segment [i]; the empty list stands for a
    command that is not built. *)
Definition segment_cmd (env : collaborators) (input_audio : string) (cuts : list float)
    (outdir codec quality ext : string) (i : Z) : list string :=
  match export_cmd env input_audio cuts codec quality i (segment_file outdir ext i) with
  | inr cmd => cmd
  | inl _ => []
  end.
End B64.

(** * Properties *)

Example scenario_1 :
  compute_equalized_cycle_cuts 9 3 3 = inr [0; 3; 6; 9]%Q.
Proof. reflexivity. Qed.

Example scenario_2 :
  compute_equalized_cycle_cuts 10 2 3 = inr [0; 6; 10]%Q.
Proof. reflexivity. Qed.

Example scenario_3 :
  compute_equalized_cycle_cuts 5 3 3 = inl InsufficientCyclesError.
Proof. reflexivity. Qed.

Example round_half_to_even :
  map Py.round [1 # 2; 3 # 2; 5 # 2; -1 # 2; -3 # 2; 7 # 4; -7 # 4]%Q
  = [0; 2; 2; 0; -2; 2; -2].
Proof. reflexivity. Qed.

Example round3_values :
  map Py.round3 [1 # 16; 3 # 16; 12346 # 10000; 6; 4 # 10000]%Q
  = [31 # 500; 47 # 250; 247 # 200; 6; 0]%Q.
Proof. reflexivity. Qed.

Example int_truncates : map Py.int [7 # 2; -7 # 2; 5; -5; 0]%Q = [3; -3; 5; -5; 0].
Proof. reflexivity. Qed.

Example zero_padded_values :
  map (Fmt.zero_padded 3) [0; 7; 42; 999; 1000; -5]
  = ["000"; "007"; "042"; "999"; "1000"; "-05"]%string.
Proof. reflexivity. Qed.

Example hhmmss_ms_3_5 : hhmmss_ms (7 # 2) = "00:00:03.500"%string.
Proof. reflexivity. Qed.

Example hhmmss_ms_3723_042 : hhmmss_ms (3723042 # 1000) = "01:02:03.042"%string.
Proof. reflexivity. Qed.

(** ** Rounding *)

Section RoundFacts.
Local Open Scope Q_scope.


Lemma floor_frac (x : Q) :
  0 <= x - inject_Z (Qfloor x) /\ x - inject_Z (Qfloor x) < 1.
Proof.
  pose proof (Qfloor_le x) as L. pose proof (Qlt_floor x) as U.
  rewrite inject_Z_plus in U. change (inject_Z 1) with 1 in U.
  split; lra.
Qed.

(** [round] is nearest: it is within one half of its argument. *)
Lemma round_nearest (x : Q) :
  inject_Z (Py.round x) - (1 # 2) <= x /\ x <= inject_Z (Py.round x) + (1 # 2).
Proof.
  destruct (floor_frac x) as [L U]. unfold Py.round.
  destruct (x - inject_Z (Qfloor x) ?= 1 # 2) eqn:C.
  - apply Qeq_alt in C.
    destruct (Z.even (Qfloor x)); [| rewrite inject_Z_plus; change (inject_Z 1) with 1];
      split; lra.
  - apply Qlt_alt in C. split; lra.
  - apply Qgt_alt in C. rewrite inject_Z_plus. change (inject_Z 1) with 1. split; lra.
Qed.

(** At a tie [round] picks the even neighbour. *)
Lemma round_tie_even (x : Q) :
  x == inject_Z (Py.round x) + (1 # 2) \/ x == inject_Z (Py.round x) - (1 # 2) ->
  Z.even (Py.round x) = true.
Proof.
  destruct (floor_frac x) as [L U]. unfold Py.round.
  destruct (x - inject_Z (Qfloor x) ?= 1 # 2) eqn:C.
  - destruct (Z.even (Qfloor x)) eqn:Ev; [intros _; exact Ev |].
    intros _. rewrite Z.add_1_r, Z.even_succ, <- Z.negb_even, Ev. reflexivity.
  - apply Qlt_alt in C. intros [H | H]; lra.
  - apply Qgt_alt in C. rewrite inject_Z_plus. change (inject_Z 1) with 1.
    intros [H | H]; lra.
Qed.

Lemma inject_Z_le_succ (a b : Z) : inject_Z a < inject_Z b + 1 -> (a <= b)%Z.
Proof.
  intros H. change 1 with (inject_Z 1) in H. rewrite <- inject_Z_plus in H.
  rewrite <- Zlt_Qlt in H. lia.
Qed.












End RoundFacts.

(** ** Ranges and loops *)

Lemma range_empty (a b : Z) : b <= a -> Py.range a b = [].
Proof.
  intros H. unfold Py.range. replace (Z.to_nat (b - a)) with O by lia. reflexivity.
Qed.

Lemma range_first (a b : Z) : a < b -> Py.range a b = a :: Py.range (a + 1) b.
Proof.
  intros H. unfold Py.range.
  replace (Z.to_nat (b - a)) with (S (Z.to_nat (b - (a + 1)))) by lia.
  cbn [seq map]. f_equal; [lia |].
  rewrite <- seq_shift, map_map. apply map_ext. intros n. lia.
Qed.

Lemma range_length (a b : Z) : List.length (Py.range a b) = Z.to_nat (b - a).
Proof. unfold Py.range. rewrite length_map, length_seq. reflexivity. Qed.

Section LoopInvariant.
Context {S : Type} (body : Z -> S -> S) (P : Z -> S -> Prop).
Variables (a b : Z).
Hypothesis step : forall i st, a <= i < b -> P i st -> P (i + 1) (body i st).



End LoopInvariant.


(** ** Strictly sorted lists *)

Lemma StronglySorted_snoc {A : Type} (R : A -> A -> Prop) (l : list A) (z : A) :
  StronglySorted R l -> Forall (fun x => R x z) l -> StronglySorted R (l ++ [z]).
Proof.
  induction 1 as [| x l Hs IH Hx]; intros F; cbn.
  - repeat constructor.
  - inversion F as [| ? ? Rx Fl]; subst. constructor; [apply IH; exact Fl |].
    apply Forall_app. split; [exact Hx | repeat constructor; exact Rx].
Qed.


(** ** The planner loop *)

Section PlannerFacts.
Variables (segments max_k : Z) (ideal_len cycle : Q).
Hypothesis feasible : segments - 1 <= max_k.

Let body := planner_body segments max_k ideal_len cycle.
Let chosen := chosen_k segments max_k ideal_len cycle.


Lemma planner_inv_init : planner_inv segments max_k 1 planner_init.
Proof.
  unfold planner_inv, min_allowed, max_allowed, planner_init; cbn.
  repeat split; [lia | repeat constructor | repeat constructor; lia].
Qed.




End PlannerFacts.

(** ** [compute_equalized_cycle_cuts] *)

Section CutsFacts.
Variables (audio_dur : Q) (segments : Z) (cycle : Q).


Hypothesis cycle_pos : (0 < cycle)%Q.

Let max_k := Qfloor ((audio_dur - eps) / cycle).







End CutsFacts.






(** C3: with [segments == 1] the planner returns exactly
    [[0.0, audio_dur]], whatever the duration (positive ones included) and
    whatever the cycle: no interior cut, no use of [cycle]. *)
Theorem single_segment_cuts (audio_dur cycle : Q) :
  compute_equalized_cycle_cuts audio_dur 1 cycle = inr [0%Q; audio_dur].
Proof. reflexivity. Qed.

(** C5: for [audio_dur = 10.0], [segments = 2], [cycle = 3.0] the planner
    has [max_k = 3]; its only iteration, [i = 1], has [ideal_k = 2],
    [min_allowed = 1], [max_allowed = 3] and chooses [k = 2]; the cuts are
    [[0.0, 6.0, 10.0]]. *)
Theorem scenario_2_trace :
  let audio_dur := 10%Q in
  let segments := 2 in
  let cycle := 3%Q in
  let max_k := 3 in
  let ideal_len := (audio_dur / inject_Z segments)%Q in
  bind (Py.floordiv (audio_dur - eps) cycle) (fun q => ret (Py.int q)) = inr max_k
  /\ Py.truediv audio_dur (inject_Z segments) = inr ideal_len
  /\ iterations (planner_body segments max_k ideal_len cycle)
       (Py.range 1 segments) planner_init = [(1, planner_init)]
  /\ ideal_k ideal_len cycle 1 = 2
  /\ min_allowed planner_init = 1
  /\ max_allowed segments max_k 1 = 3
  /\ collapses segments max_k 1 planner_init = false
  /\ chosen_k segments max_k ideal_len cycle 1 planner_init = 2
  /\ compute_equalized_cycle_cuts audio_dur segments cycle = inr [0; 6; 10]%Q.
Proof. cbv zeta. repeat split. Qed.

(** ** [hhmmss_ms] *)

(** Whenever the fractional part of [t] exceeds 0.9995 the millisecond
    field is 1000: nothing carries it into the seconds. *)
Lemma ms_field_overflow (t : Q) :
  (0 <= t)%Q -> (9995 # 10000 < t - inject_Z (Qfloor t))%Q -> ms_field t = 1000.
Proof.
  intros Ht Hf. unfold ms_field, Py.int.
  replace (Qle_bool 0 t) with true by (symmetry; apply Qle_bool_iff; exact Ht).
  destruct (floor_frac t) as [_ U].
  change (inject_Z 1000) with 1000%Q.
  destruct (round_nearest ((t - inject_Z (Qfloor t)) * 1000)) as [L H].
  set (r := Py.round ((t - inject_Z (Qfloor t)) * 1000)) in *. clearbody r.
  apply Z.le_antisymm.
  - apply inject_Z_le_succ. change (inject_Z 1000) with 1000%Q. lra.
  - assert (G : (inject_Z 999 < inject_Z r)%Q) by (change (inject_Z 999) with 999%Q; lra).
    rewrite <- Zlt_Qlt in G. lia.
Qed.

(** C8 fails on the code: for [t = 1.9996] the millisecond field is
    [1000] and the string is "00:00:01.1000", which has four digits after
    the point and reads as 1.1 s.  The exporter passes this very value
    when a single segment lasts 1.9996 s. *)
Theorem hhmmss_ms_millisecond_overflow :
  ms_field (19996 # 10000) = 1000
  /\ hhmmss_ms (19996 # 10000) = "00:00:01.1000"%string
  /\ compute_equalized_cycle_cuts (19996 # 10000) 1 3 = inr [0; 19996 # 10000]%Q
  /\ forall env,
       export_cmd env "in_audio" [0; 19996 # 10000]%Q "mp3" "2" 0
         (mk_path "chunks" "part_001.mp3")
       = inr [FFMPEG env; "-hide_banner"; "-y"; "-ss"; "00:00:00.000";
              "-t"; "00:00:01.1000"; "-i"; "in_audio"; "-vn";
              "-acodec"; "libmp3lame"; "-q:a"; "2";
              "-map_metadata"; "-1"; "chunks/part_001.mp3"]%string.
Proof. repeat split. Qed.

(** ** The orchestrator *)

Section IOFacts.
Context {A B : Type}.

Lemma bind_inr (m : io A) (k : A -> io B) log b log' :
  IO.bind m k log = (inr b, log') ->
  exists a log1, m log = (inr a, log1) /\ k a log1 = (inr b, log').
Proof.
  unfold IO.bind. destruct (m log) as [[e | a] log1]; [discriminate |].
  intros H. exists a, log1. split; [reflexivity | exact H].
Qed.

Lemma try_except_inr (m : io A) (h : exn -> exn) log a log' :
  IO.try_except m h log = (inr a, log') -> m log = (inr a, log').
Proof.
  unfold IO.try_except. destruct (m log) as [[e | a'] log1]; [discriminate |].
  intros H. exact H.
Qed.

Lemma lift_inr (r : result A) log a log' :
  IO.lift r log = (inr a, log') -> r = inr a /\ log' = log.
Proof. unfold IO.lift. intros H. injection H as -> ->. split; reflexivity. Qed.
End IOFacts.


Section SplitterFacts.
Variable env : collaborators.

End SplitterFacts.

(** C9: a call with a codec other than "mp3", "aac" and "copy" raises a
    validation error and leaves the record of collaborator calls as it
    was: nothing is fetched, nothing is probed, transcoded or uploaded.
    With [segments >= 1] the error is the codec one. *)
Theorem invalid_codec_rejected_first
    (env : collaborators) (segments : Z) (audio_url codec quality ext : string)
    (first_inverted : bool) (video_duration : option Q)
    (video_url r2_prefix : option string) (log : list event) :
  codec <> "mp3"%string -> codec <> "aac"%string -> codec <> "copy"%string ->
  exists e,
    process_audio_split env segments audio_url codec quality ext first_inverted
      video_duration video_url r2_prefix log = (inl e, log)
    /\ is_validation_error e
    /\ (1 <= segments -> e = Raise ValueError msg_codec_api).
Proof.
  intros H1 H2 H3. unfold process_audio_split, is_validation_error.
  destruct (segments <? 1) eqn:Hs.
  - eexists. split; [reflexivity |]. split; [left; reflexivity |].
    apply Z.ltb_lt in Hs. lia.
  - assert (C : supported_codec codec = false).
    { unfold supported_codec. apply String.eqb_neq in H1, H2, H3.
      rewrite H1, H2, H3. reflexivity. }
    rewrite C. cbn. eexists. split; [reflexivity |]. split; [right |]; reflexivity.
Qed.

Lemma invalid_codec_rejected_first_witness :
  exists e,
    process_audio_split (cooperative 9) 3 "https://a/x.mp3" "flac" "2" "flac" false
      (Some 3%Q) None None [] = (inl e, [])
    /\ is_validation_error e
    /\ (1 <= 3 -> e = Raise ValueError msg_codec_api).
Proof.
  apply invalid_codec_rejected_first; discriminate.
Defined.

(** C4, as stated, fails: the planner does not look at the sign of the
    cycle.  With [segments = 1] and [cycle = -1.0] it returns a plan; with
    [segments = 2] it raises the floor-division error for [cycle = 0.0]
    and the insufficient-cycles error for [cycle = -3.0]. *)
Lemma planner_accepts_nonpositive_cycle :
  (-1 <= 0)%Q /\ 1 <= 1
  /\ compute_equalized_cycle_cuts 10 1 (-1) = inr [0; 10]%Q
  /\ compute_equalized_cycle_cuts 10 1 (-1) <> inl InvalidCycleError
  /\ compute_equalized_cycle_cuts 10 2 0
     = inl (Raise ZeroDivisionError msg_float_floor_div)
  /\ compute_equalized_cycle_cuts 10 2 (-3) = inl InsufficientCyclesError.
Proof. repeat split; discriminate. Qed.

(** C4, amended: the check is the orchestrator's.  When a request passes
    validation, the audio is downloaded and probed, and the resolved
    cycle (the caller's [video_duration] or the probed video duration) is
    [<= 0], [process_audio_split] raises the invalid-cycle error, before
    the planner or the transcoder is reached. *)
Theorem nonpositive_cycle_rejected
    (env : collaborators) (segments : Z) (audio_url codec quality ext : string)
    (first_inverted : bool) (video_duration : option Q)
    (video_url r2_prefix : option string)
    (log log1 log2 log3 : list event) (audio_dur cycle : Q) :
  1 <= segments -> supported_codec codec = true ->
  download_to_path env audio_url (mk_path (td env) "in_audio") log = (inr tt, log1) ->
  media_duration_seconds env (path_str (mk_path (td env) "in_audio")) log1
    = (inr audio_dur, log2) ->
  resolve_cycle env video_duration video_url log2 = (inr cycle, log3) ->
  (cycle <= 0)%Q ->
  process_audio_split env segments audio_url codec quality ext first_inverted
    video_duration video_url r2_prefix log = (inl InvalidCycleError, log3).
Proof.
  intros Hs Hcodec Hdl Hprobe Hcycle Hle. unfold process_audio_split.
  replace (segments <? 1) with false by (symmetry; apply Z.ltb_ge; lia).
  rewrite Hcodec. cbn [negb].
  unfold IO.bind at 1. rewrite Hdl.
  unfold IO.bind at 1. unfold IO.try_except at 1. rewrite Hprobe.
  unfold IO.bind at 1. rewrite Hcycle.
  replace (Qle_bool cycle 0) with true by (symmetry; apply Qle_bool_iff; exact Hle).
  reflexivity.
Qed.

Lemma nonpositive_cycle_rejected_witness :
  process_audio_split (cooperative 9) 3 "https://a/x.mp3" "mp3" "2" "mp3" false
    (Some (-3)%Q) None None []
  = (inl InvalidCycleError,
     [ev_http_get "https://a/x.mp3"; ev_ffprobe "/tmp/td/in_audio"]).
Proof.
  apply (nonpositive_cycle_rejected (cooperative 9) 3 "https://a/x.mp3" "mp3" "2" "mp3"
           false (Some (-3)%Q) None None []
           [ev_http_get "https://a/x.mp3"]
           [ev_http_get "https://a/x.mp3"; ev_ffprobe "/tmp/td/in_audio"]
           [ev_http_get "https://a/x.mp3"; ev_ffprobe "/tmp/td/in_audio"]
           9 (-3));
    try reflexivity; [lia | discriminate].
Defined.

(** * Further properties *)

(** ** More on the planner *)




Section WholeCycles.
Variables (n m : Z) (cycle : Q).
Hypothesis n_gt_1 : 1 < n.
Hypothesis m_pos : 1 <= m.
Hypothesis cycle_ms : (2 # 1000 <= cycle)%Q.

Let audio_dur : Q := (inject_Z (n * m) * cycle)%Q.
Let max_k : Z := n * m - 1.
Let ideal_len : Q := (audio_dur / inject_Z n)%Q.





End WholeCycles.




(** ** More on [hhmmss_ms] *)

Lemma in_range (a b z : Z) : a <= z < b -> In z (Py.range a b).
Proof.
  intros H. unfold Py.range. apply in_map_iff.
  exists (Z.to_nat (z - a)). split; [lia |]. apply in_seq. lia.
Qed.

Lemma zero_padded_2_shape (z : Z) :
  0 <= z < 100 ->
  exists a b : ascii,
    Fmt.zero_padded 2 z = String a (String b EmptyString)
    /\ read_decimal (String a (String b EmptyString)) = Some z.
Proof.
  intros Hz.
  assert (C : forallb (fun z =>
                match Fmt.zero_padded 2 z with
                | String a (String b EmptyString) =>
                    match read_decimal (String a (String b EmptyString)) with
                    | Some r => r =? z
                    | None => false
                    end
                | _ => false
                end) (Py.range 0 100) = true) by (vm_compute; reflexivity).
  rewrite forallb_forall in C. specialize (C z (in_range 0 100 z Hz)).
  destruct (Fmt.zero_padded 2 z) as [| a [| b [| c r]]]; try discriminate C.
  exists a, b. split; [reflexivity |].
  destruct (read_decimal (String a (String b EmptyString))); [| discriminate C].
  apply Z.eqb_eq in C. congruence.
Qed.

Lemma zero_padded_3_shape (z : Z) :
  0 <= z < 1000 ->
  exists a b c : ascii,
    Fmt.zero_padded 3 z = String a (String b (String c EmptyString))
    /\ read_decimal (String a (String b (String c EmptyString))) = Some z.
Proof.
  intros Hz.
  assert (C : forallb (fun z =>
                match Fmt.zero_padded 3 z with
                | String a (String b (String c EmptyString)) =>
                    match read_decimal (String a (String b (String c EmptyString))) with
                    | Some r => r =? z
                    | None => false
                    end
                | _ => false
                end) (Py.range 0 1000) = true) by (vm_compute; reflexivity).
  rewrite forallb_forall in C. specialize (C z (in_range 0 1000 z Hz)).
  destruct (Fmt.zero_padded 3 z) as [| a [| b [| c [| d r]]]]; try discriminate C.
  exists a, b, c. split; [reflexivity |].
  destruct (read_decimal (String a (String b (String c EmptyString)))); [| discriminate C].
  apply Z.eqb_eq in C. congruence.
Qed.

(** ** More on the downloads *)

Lemma write_chunks_cap (max_bytes : Z) (chunks : list Z) (total : Z) :
  Forall (fun c => 0 <= c) chunks -> total <= max_bytes ->
  write_chunks max_bytes chunks total
  = if total + fold_right Z.add 0 chunks <=? max_bytes then inr tt
    else inl (Raise ValueError (msg_too_large max_bytes)).
Proof.
  intros Hc. revert total. induction Hc as [| c chunks Hc0 Hc IH]; intros total Ht.
  - cbn. rewrite Z.add_0_r.
    replace (total <=? max_bytes) with true by (symmetry; apply Z.leb_le; exact Ht).
    reflexivity.
  - cbn [write_chunks fold_right].
    assert (Hs : 0 <= fold_right Z.add 0 chunks).
    { clear - Hc. induction Hc; cbn; lia. }
    destruct (c =? 0) eqn:E0.
    + apply Z.eqb_eq in E0. subst c. rewrite IH by exact Ht. reflexivity.
    + destruct (total + c >? max_bytes) eqn:Ecap.
      * rewrite Z.gtb_ltb in Ecap. apply Z.ltb_lt in Ecap.
        replace (_ <=? _) with false by (symmetry; apply Z.leb_gt; lia).
        reflexivity.
      * rewrite Z.gtb_ltb in Ecap. apply Z.ltb_ge in Ecap.
        rewrite IH by exact Ecap. rewrite Z.add_assoc. reflexivity.
Qed.

(** X5. The size cap of [download_to_path]: for an http(s) URL whose
    response arrives as chunks of the given lengths, the download makes
    one request and succeeds exactly when the lengths sum to at most
    1 500 000 000 bytes; otherwise it raises the too-large error. *)
Theorem download_size_cap
    (env : collaborators) (url : string) (dst : path) (log : list event)
    (chunks : list Z) :
  Fmt.startswith "http://" url || Fmt.startswith "https://" url = true ->
  http_get env log url = inr chunks ->
  Forall (fun c => 0 <= c) chunks ->
  download_to_path env url dst log
  = (if fold_right Z.add 0 chunks <=? 1500000000 then inr tt
     else inl (Raise ValueError (msg_too_large 1500000000)),
     log ++ [ev_http_get url]).
Proof.
  intros Hurl Hget Hc. unfold download_to_path. rewrite Hurl. cbn [negb].
  unfold IO.bind, IO.call, IO.lift. rewrite Hget.
  rewrite write_chunks_cap by (assumption || lia). reflexivity.
Qed.

(** Two chunks of 1 GB each exceed the cap. *)
Lemma download_size_cap_witness :
  download_to_path
    {| FFMPEG := "ffmpeg"; FFPROBE := "ffprobe"; R2_PREFIX_DEFAULT := "chunks/";
       td := "/tmp/td";
       http_get := fun _ _ => inr [1000000000; 0; 1000000000];
       ffprobe := fun _ _ => inr 9%Q; ffmpeg := fun _ _ => inr tt;
       put_object := fun _ _ _ => inr tt; join_public_url := fun k => k |}
    "https://a/x.mp3" (mk_path "/tmp/td" "in_audio") []
  = (inl (Raise ValueError (msg_too_large 1500000000)),
     [ev_http_get "https://a/x.mp3"]).
Proof.
  apply (download_size_cap _ "https://a/x.mp3" (mk_path "/tmp/td" "in_audio") []
           [1000000000; 0; 1000000000]);
    [reflexivity | reflexivity | repeat constructor; lia].
Defined.

Section RunFacts.
Variable env : collaborators.

Lemma download_ok_log (url : string) (dst : path) (log log' : list event) (u : unit) :
  download_to_path env url dst log = (inr u, log') -> log' = log ++ [ev_http_get url].
Proof.
  unfold download_to_path.
  destruct (negb _); [discriminate |].
  unfold IO.bind, IO.call, IO.lift.
  destruct (http_get env log url) as [e | chunks]; [discriminate |].
  intros H. injection H as _ <-. reflexivity.
Qed.

End RunFacts.

(** ** More on the exporter *)

Section ExportFacts.
Variable env : collaborators.
Variables (input_audio : string) (cuts : list Q) (outdir codec quality ext : string).

Let cmd_of := segment_cmd env input_audio cuts outdir codec quality ext.
Let file_of := segment_file outdir ext.






End ExportFacts.

Lemma enumerate1_snd {A : Type} (l : list A) : map snd (enumerate1 l) = l.
Proof.
  unfold enumerate1.
  assert (H : forall (idx : list Z), (List.length l <= List.length idx)%nat ->
                                     map snd (combine idx l) = l).
  { induction l as [| x l IH]; intros idx Hl.
    - destruct idx; reflexivity.
    - destruct idx as [| j idx]; [cbn in Hl; lia |]. cbn. f_equal. apply IH. cbn in Hl. lia. }
  apply H. rewrite range_length. lia.
Qed.

Section PublishFacts.
Variable env : collaborators.
Variables (cuts : list Q) (cycle : Q) (prefix : string).

Lemma publish_loop_step (first_inverted : bool) (idx : Z) (local_path : path)
    (rest : list (Z * path)) (results : list split_entry) (log : list event) :
  publish_loop env cuts cycle prefix first_inverted ((idx, local_path) :: rest) results log
  = let k := (prefix ++ name local_path)%string in
    match put_object env log k local_path with
    | inl e => (inl e, log ++ [ev_put_object k])
    | inr _ =>
        match inverted_flag cuts cycle first_inverted idx with
        | inl e => (inl e, log ++ [ev_put_object k])
        | inr inverted =>
            publish_loop env cuts cycle prefix first_inverted rest
              (results ++ [{| audio := join_public_url env k; key := k;
                              start_with_inverted := inverted |}])
              (log ++ [ev_put_object k])
        end
    end.
Proof.
  cbn [publish_loop]. unfold upload_file_to_r2, IO.bind, IO.call, IO.ret, IO.lift. cbv zeta.
  destruct (put_object env log _ local_path); [reflexivity |].
  destruct (inverted_flag cuts cycle first_inverted idx); reflexivity.
Qed.

Lemma inverted_flag_negb (first_inverted : bool) (idx : Z) :
  inverted_flag cuts cycle (negb first_inverted) idx
  = match inverted_flag cuts cycle first_inverted idx with
    | inl e => inl e
    | inr b => inr (negb b)
    end.
Proof.
  unfold inverted_flag. destruct (Py.floordiv _ cycle); [reflexivity |].
  destruct first_inverted; cbn; rewrite ?negb_involutive; reflexivity.
Qed.

(** Negating [first_inverted] negates every flag and changes nothing
    else, whatever the loop's outcome. *)
Lemma publish_loop_flip (first_inverted : bool) (files : list (Z * path))
    (results : list split_entry) (log : list event) :
  publish_loop env cuts cycle prefix (negb first_inverted) files
    (map flip_phase results) log
  = (match fst (publish_loop env cuts cycle prefix first_inverted files results log) with
     | inl e => inl e
     | inr out => inr (map flip_phase out)
     end,
     snd (publish_loop env cuts cycle prefix first_inverted files results log)).
Proof.
  revert results log. induction files as [| [idx local_path] rest IH]; intros results log.
  - reflexivity.
  - rewrite !publish_loop_step. cbv zeta.
    destruct (put_object env log _ local_path); [reflexivity |].
    rewrite inverted_flag_negb.
    destruct (inverted_flag cuts cycle first_inverted idx) as [e | b]; [reflexivity |].
    rewrite <- IH, map_app. reflexivity.
Qed.
End PublishFacts.

Lemma bind_flip {A : Type} (m : io A) (k1 k2 : A -> io (list split_entry))
    (log : list event) :
  (forall a log1, k1 a log1 = flip_outcome (k2 a log1)) ->
  IO.bind m k1 log = flip_outcome (IO.bind m k2 log).
Proof.
  intros H. unfold IO.bind. destruct (m log) as [[e | a] log1]; [reflexivity | apply H].
Qed.

(** X8. Setting [first_inverted] negates the flag of every returned entry and
    changes nothing else: the same calls are made, the same error is
    raised, the same URLs and keys are returned. *)
Theorem first_inverted_only_flips
    (env : collaborators) (segments : Z) (audio_url codec quality ext : string)
    (first_inverted : bool) (video_duration : option Q)
    (video_url r2_prefix : option string) (log : list event) :
  process_audio_split env segments audio_url codec quality ext (negb first_inverted)
    video_duration video_url r2_prefix log
  = flip_outcome
      (process_audio_split env segments audio_url codec quality ext first_inverted
         video_duration video_url r2_prefix log).
Proof.
  unfold process_audio_split.
  destruct (segments <? 1); [reflexivity |].
  destruct (negb (supported_codec codec)); [reflexivity |].
  apply bind_flip. intros _ log1.
  apply bind_flip. intros audio_dur log2.
  apply bind_flip. intros cycle log3.
  destruct (Qle_bool cycle 0); [reflexivity |].
  apply bind_flip. intros cuts log4.
  apply bind_flip. intros local_files log5.
  apply (publish_loop_flip env cuts cycle _ first_inverted (enumerate1 local_files) [] log5).
Qed.

(** X10. A request with neither [video_duration] nor a non-empty [video_url]
    is refused only after the audio has been downloaded and probed. *)
Theorem split_missing_cycle_source
    (env : collaborators) (segments : Z) (audio_url codec quality ext : string)
    (first_inverted : bool) (video_url r2_prefix : option string)
    (log log1 : list event) (audio_dur : Q) :
  1 <= segments -> supported_codec codec = true ->
  video_url = None \/ video_url = Some ""%string ->
  download_to_path env audio_url (mk_path (td env) "in_audio") log = (inr tt, log1) ->
  ffprobe env log1 (path_str (mk_path (td env) "in_audio")) = inr audio_dur ->
  process_audio_split env segments audio_url codec quality ext first_inverted
    None video_url r2_prefix log
  = (inl MissingCycleSourceError,
     log ++ [ev_http_get audio_url;
             ev_ffprobe (path_str (mk_path (td env) "in_audio"))]).
Proof.
  intros Hs Hcodec Hurl Hdl Hprobe. unfold process_audio_split.
  replace (segments <? 1) with false by (symmetry; apply Z.ltb_ge; lia).
  rewrite Hcodec. cbn [negb].
  pose proof (download_ok_log env _ _ _ _ _ Hdl) as ->.
  unfold IO.bind at 1. rewrite Hdl.
  unfold IO.bind at 1. unfold IO.try_except at 1, media_duration_seconds, IO.call.
  rewrite Hprobe. unfold IO.bind at 1, resolve_cycle.
  rewrite <- app_assoc.
  destruct Hurl as [-> | ->]; reflexivity.
Qed.

Lemma split_missing_cycle_source_witness :
  process_audio_split (cooperative 9) 3 "https://a/x.mp3" "mp3" "2" "mp3" false
    None None None []
  = (inl MissingCycleSourceError,
     [] ++ [ev_http_get "https://a/x.mp3";
            ev_ffprobe (path_str (mk_path (td (cooperative 9)) "in_audio"))]).
Proof.
  apply (split_missing_cycle_source (cooperative 9) 3 "https://a/x.mp3" "mp3" "2" "mp3"
           false None None [] [ev_http_get "https://a/x.mp3"] 9);
    try reflexivity; [lia | left; reflexivity].
Defined.


Example export_breaks_at_second_segment :
  let run := export_segments (transcoder_fails_after 1 9) "in_audio" [0; 3; 6; 9]%Q
               "chunks" "mp3" "2" "mp3" [] in
  fst run = inl (Raise RuntimeError (msg_text "ffmpeg: exit status 1"))
  /\ List.length (snd run) = 2%nat.
Proof. split; reflexivity. Qed.


(** ** What a split never calls *)

Section OnlyAdds.
Context (P : event -> Prop).

Lemma only_adds_ret {A} (a : A) : only_adds P (IO.ret a).
Proof. intros log. exists []. cbn. rewrite app_nil_r. auto. Qed.

Lemma only_adds_raise {A} (e : exn) : only_adds P (@IO.raise A e).
Proof. intros log. exists []. cbn. rewrite app_nil_r. auto. Qed.

Lemma only_adds_lift {A} (r : result A) : only_adds P (IO.lift r).
Proof. intros log. exists []. cbn. rewrite app_nil_r. auto. Qed.

Lemma only_adds_call {A} (e : event) (answer : list event -> result A) :
  P e -> only_adds P (IO.call e answer).
Proof. intros He log. exists [e]. cbn. auto. Qed.

Lemma only_adds_bind {A B} (m : io A) (k : A -> io B) :
  only_adds P m -> (forall a, only_adds P (k a)) -> only_adds P (IO.bind m k).
Proof.
  intros Hm Hk log. destruct (Hm log) as (new1 & E1 & F1).
  unfold IO.bind. destruct (m log) as [[e | a] log1]; cbn in E1; subst log1.
  - exists new1. auto.
  - destruct (Hk a (log ++ new1)) as (new2 & E2 & F2).
    exists (new1 ++ new2). rewrite E2, app_assoc. split; [reflexivity |].
    apply Forall_app. auto.
Qed.

Lemma only_adds_try_except {A} (m : io A) (h : exn -> exn) :
  only_adds P m -> only_adds P (IO.try_except m h).
Proof.
  intros Hm log. destruct (Hm log) as (new & E & F).
  unfold IO.try_except. destruct (m log) as [[e | a] log1]; cbn in *; exists new; auto.
Qed.
End OnlyAdds.

Section NeverCalls.
Variable env : collaborators.

Lemma only_adds_download (P : event -> Prop) (url : string) (dst : path) :
  (http_only (ev_http_get url) -> P (ev_http_get url)) ->
  only_adds P (download_to_path env url dst).
Proof.
  intros HP. unfold download_to_path.
  destruct (Fmt.startswith "http://" url || Fmt.startswith "https://" url) eqn:E; cbn [negb].
  - apply only_adds_bind; [apply only_adds_call, HP; exact E |].
    intros chunks. apply only_adds_lift.
  - apply only_adds_raise.
Qed.

Lemma only_adds_export (P : event -> Prop) input_audio cuts outdir codec quality ext
    (idx : list Z) (outputs : list path) :
  (forall cmd, P (ev_ffmpeg cmd)) ->
  only_adds P (export_loop env input_audio cuts outdir codec quality ext idx outputs).
Proof.
  intros HP. revert outputs. induction idx as [| i rest IH]; intros outputs.
  - apply only_adds_ret.
  - cbn [export_loop]. apply only_adds_bind; [apply only_adds_lift |].
    intros cmd. apply only_adds_bind; [apply only_adds_call, HP |].
    intros _. apply IH.
Qed.

Lemma only_adds_publish (P : event -> Prop) cuts cycle prefix first_inverted
    (files : list (Z * path)) (results : list split_entry) :
  (forall k, P (ev_put_object k)) ->
  only_adds P (publish_loop env cuts cycle prefix first_inverted files results).
Proof.
  intros HP. revert results. induction files as [| [idx local_path] rest IH]; intros results.
  - apply only_adds_ret.
  - cbn [publish_loop]. apply only_adds_bind.
    + unfold upload_file_to_r2. apply only_adds_bind; [apply only_adds_call, HP |].
      intros _. apply only_adds_ret.
    + intros url. apply only_adds_bind; [apply only_adds_lift |]. intros inv. apply IH.
Qed.

(** X12. Whatever the outcome, a split only requests the audio URL and, when
    no [video_duration] was given, the video URL, and never a URL that is
    not http(s); it only probes the two files it downloaded. *)
Theorem split_only_makes_allowed_calls
    (segments : Z) (audio_url codec quality ext : string)
    (first_inverted : bool) (video_duration : option Q)
    (video_url r2_prefix : option string) (log : list event) :
  exists new,
    snd (process_audio_split env segments audio_url codec quality ext first_inverted
           video_duration video_url r2_prefix log) = log ++ new
    /\ Forall (allowed_call env audio_url video_duration video_url) new.
Proof.
  set (P := allowed_call env audio_url video_duration video_url).
  revert log. change (only_adds P (process_audio_split env segments audio_url codec quality
                                     ext first_inverted video_duration video_url r2_prefix)).
  unfold process_audio_split.
  destruct (segments <? 1); [apply only_adds_raise |].
  destruct (negb (supported_codec codec)); [apply only_adds_raise |].
  apply only_adds_bind.
  { apply only_adds_download. intros H. split; [exact H | left; reflexivity]. }
  intros _. apply only_adds_bind.
  { apply only_adds_try_except, only_adds_call. left. reflexivity. }
  intros audio_dur. apply only_adds_bind.
  { unfold resolve_cycle. destruct video_duration as [d |]; [apply only_adds_ret |].
    destruct video_url as [url |]; [| apply only_adds_raise].
    destruct url as [| c url']; [apply only_adds_raise |].
    apply only_adds_bind.
    - apply only_adds_download. intros H. split; [exact H | right; auto].
    - intros _. apply only_adds_try_except, only_adds_call. right. auto. }
  intros cycle. destruct (Qle_bool cycle 0); [apply only_adds_raise |].
  apply only_adds_bind; [apply only_adds_try_except, only_adds_lift |].
  intros cuts. apply only_adds_bind.
  { apply only_adds_try_except. unfold export_segments. apply only_adds_export.
    intros cmd. exact I. }
  intros local_files. apply only_adds_publish. intros k. exact I.
Qed.
End NeverCalls.

(** ** [join_public_url] *)

Section UrlFacts.
Local Open Scope string_scope.

Lemma split_slash_cons (s : string) : exists part parts, Url.split_slash s = part :: parts.
Proof.
  induction s as [| c rest IH]; [exists "", []; reflexivity |].
  destruct IH as (part & parts & E). cbn. rewrite E.
  destruct (Ascii.eqb c "/"); eauto.
Qed.

Lemma join_slash_cons (part : string) (parts : list string) :
  Url.join_slash (part :: parts)
  = part ++ match parts with [] => "" | _ => "/" ++ Url.join_slash parts end.
Proof.
  destruct parts; cbn [Url.join_slash]; [| reflexivity].
  induction part; cbn; congruence.
Qed.

Lemma append_assoc (a b c : string) : (a ++ b) ++ c = a ++ b ++ c.
Proof. induction a; cbn; congruence. Qed.

Lemma append_empty_r (a : string) : a ++ "" = a.
Proof. induction a; cbn; congruence. Qed.

Lemma quote_app (a b : string) : Url.quote (a ++ b) = Url.quote a ++ Url.quote b.
Proof.
  induction a as [| c a IH]; [reflexivity |]. cbn. rewrite IH, append_assoc. reflexivity.
Qed.

(** Quoting the parts between the slashes and joining them again is
    quoting the whole key with "/" kept. *)
Lemma quote_parts (key : string) :
  Url.join_slash (map Url.quote (Url.split_slash key)) = Url.quote key.
Proof.
  induction key as [| c rest IH]; [reflexivity |].
  cbn [Url.split_slash]. destruct (split_slash_cons rest) as (part & parts & E).
  rewrite E in *. cbn [map] in IH. rewrite join_slash_cons in IH.
  destruct (Ascii.eqb c "/") eqn:Ec.
  - apply Ascii.eqb_eq in Ec. subst c. cbn [map]. rewrite join_slash_cons.
    cbn [Url.quote]. change (Url.kept "/") with true. cbn [append].
    rewrite <- IH. rewrite join_slash_cons. reflexivity.
  - cbn [map]. rewrite join_slash_cons. cbn [Url.quote]. rewrite append_assoc.
    f_equal. rewrite <- IH. destruct parts; reflexivity.
Qed.

Lemma hex_round_trip (c : ascii) :
  ascii_of_nat (16 * Url.hex_value (Url.hex_digit (nat_of_ascii c / 16))
                + Url.hex_value (Url.hex_digit (nat_of_ascii c mod 16))) = c.
Proof. destruct c as [[] [] [] [] [] [] [] []]; vm_compute; reflexivity. Qed.

Lemma kept_not_percent (c : ascii) : Url.kept c = true -> Ascii.eqb c "%" = false.
Proof.
  intros H. destruct (Ascii.eqb c "%") eqn:E; [| reflexivity].
  apply Ascii.eqb_eq in E. subst c. discriminate H.
Qed.

Lemma unquote_quote (s : string) : Url.unquote (Url.quote s) = s.
Proof.
  induction s as [| c rest IH]; [reflexivity |].
  cbn [Url.quote]. destruct (Url.kept c) eqn:K.
  - cbn [append]. cbn [Url.unquote]. rewrite (kept_not_percent c K).
    destruct (Url.quote rest) as [| h [| l r]]; rewrite <- IH; reflexivity.
  - unfold Url.percent. cbn [append Url.unquote]. change (Ascii.eqb "%" "%") with true.
    cbv iota. rewrite hex_round_trip, IH. reflexivity.
Qed.

Lemma append_cancel_l (a b c : string) : a ++ b = a ++ c -> b = c.
Proof. induction a; cbn; intros H; [exact H | injection H as H; auto]. Qed.

Lemma rstrip_slash_app_slash (s : string) : Fmt.rstrip_slash (s ++ "/") = Fmt.rstrip_slash s.
Proof.
  induction s as [| c s IH]; [reflexivity |].
  cbn [append Fmt.rstrip_slash]. rewrite IH. reflexivity.
Qed.
End UrlFacts.

Lemma join_public_url_quotes_aux (base key : string) :
  Url.join_public_url base key
  = (Fmt.rstrip_slash base ++ "/" ++ Url.quote key)%string.
Proof. unfold Url.join_public_url. rewrite quote_parts. reflexivity. Qed.

(** X13. The public URL is the base without its trailing slashes, one slash,
    and the key with every byte other than letters, digits, [_.-~] and
    "/" percent-encoded; the slashes of the key stay where they are. *)
Theorem join_public_url_quotes_the_key (base key : string) :
  Url.join_public_url base key
  = (Fmt.rstrip_slash base ++ "/" ++ Url.quote key)%string.
Proof. exact (join_public_url_quotes_aux base key). Qed.

(** X14. Under one base, different keys get different URLs. *)
Theorem join_public_url_injective (base key1 key2 : string) :
  Url.join_public_url base key1 = Url.join_public_url base key2 -> key1 = key2.
Proof.
  rewrite !join_public_url_quotes_aux. intros H.
  apply append_cancel_l, append_cancel_l in H.
  rewrite <- (unquote_quote key1), <- (unquote_quote key2), H. reflexivity.
Qed.

Lemma join_public_url_injective_witness :
  "chunks/a b.mp3"%string = "chunks/a b.mp3"%string.
Proof.
  apply (join_public_url_injective "https://cdn.example/" "chunks/a b.mp3" "chunks/a b.mp3").
  reflexivity.
Defined.

(** X15. Trailing slashes on the base make no difference. *)
Theorem join_public_url_ignores_trailing_slash (base key : string) :
  Url.join_public_url (base ++ "/") key = Url.join_public_url base key.
Proof. unfold Url.join_public_url. rewrite rstrip_slash_app_slash. reflexivity. Qed.

Lemma quote_length (s : string) : (String.length s <= String.length (Url.quote s))%nat.
Proof.
  induction s as [| c s IH]; [cbn; lia |].
  cbn [Url.quote]. destruct (Url.kept c); cbn; lia.
Qed.

Lemma quote_fixed_iff (key : string) :
  Url.quote key = key <-> forallb Url.kept (list_ascii_of_string key) = true.
Proof.
  induction key as [| c key IH]; [cbn; tauto |].
  cbn [Url.quote list_ascii_of_string forallb]. destruct (Url.kept c) eqn:K.
  - cbn [append andb]. rewrite <- IH. split; intros H; [injection H as H; exact H | congruence].
  - cbn [andb]. split; [| discriminate]. unfold Url.percent. cbn [append].
    intros H. injection H as Hc Hr. exfalso.
    pose proof (quote_length key) as L. rewrite <- Hr in L at 1. cbn in L. lia.
Qed.

(** X16. A key reaches the URL unchanged exactly when it consists of letters,
    digits, [_.-~] and "/" only. *)
Theorem join_public_url_plain_key_iff (base key : string) :
  Url.join_public_url base key = (Fmt.rstrip_slash base ++ "/" ++ key)%string
  <-> forallb Url.kept (list_ascii_of_string key) = true.
Proof.
  rewrite join_public_url_quotes_aux, <- quote_fixed_iff. split.
  - intros H. apply append_cancel_l, append_cancel_l in H. exact H.
  - intros ->. reflexivity.
Qed.

(** ** The video merger *)

Section MergerFacts.
Variable menv : merge_collaborators.
Let env := shared menv.

Lemma mbind_split {A B} (m : mio A) (k : A -> mio B) log r log' :
  MIO.bind m k log = (r, log') ->
  (exists e, m log = (inl e, log') /\ r = inl e)
  \/ (exists a log1, m log = (inr a, log1) /\ k a log1 = (r, log')).
Proof.
  unfold MIO.bind. destruct (m log) as [[e | a] log1]; intros H.
  - injection H as <- <-. left. eauto.
  - right. eauto.
Qed.

Lemma merger_download_log (url : string) (dst : path) (log log' : list event)
    (r : merge_exn + unit) :
  Merger.download_to_path menv url dst log = (r, log') ->
  (log' = log /\ exists e, r = inl e) \/ log' = log ++ [ev_http_get url].
Proof.
  unfold Merger.download_to_path. destruct (negb _).
  - intros H. injection H as <- <-. left. eauto.
  - unfold MIO.bind, MIO.call, MIO.lift.
    destruct (http_get (shared menv) log url) as [e | chunks].
    + intros H. injection H as _ <-. right. reflexivity.
    + destruct (write_chunks _ chunks 0); intros H; injection H as _ <-; right; reflexivity.
Qed.

(** The requests of the download loop are for a prefix of its inputs, in
    order; when it returns, every input was requested and the local files
    are in_NNN.mp4 in the same order. *)
Lemma download_loop_trace (inputs : list (Z * string)) (local_inputs : list path)
    (log log' : list event) (r : merge_exn + list path) :
  Merger.download_loop menv inputs local_inputs log = (r, log') ->
  exists k : nat,
    (k <= List.length inputs)%nat
    /\ log' = log ++ map ev_http_get (map snd (firstn k inputs))
    /\ match r with
       | inr out =>
           k = List.length inputs
           /\ out = local_inputs ++ map (fun f => Merger.input_file menv (fst f)) inputs
       | inl _ => True
       end.
Proof.
  revert local_inputs log. induction inputs as [| [i url] rest IH]; intros local_inputs log H.
  - cbn in H. injection H as <- <-. exists O. cbn. rewrite !app_nil_r. auto.
  - cbn [Merger.download_loop] in H. apply mbind_split in H.
    destruct H as [(e & Hd & ->) | (u & log1 & Hd & H)].
    + apply merger_download_log in Hd. destruct Hd as [[-> _] | ->].
      * exists O. cbn. rewrite app_nil_r. split; [lia | auto].
      * exists 1%nat. cbn. split; [lia | auto].
    + apply merger_download_log in Hd. destruct Hd as [[_ [e He]] | ->]; [discriminate He |].
      apply IH in H. destruct H as (k & Hk & -> & Hr).
      exists (S k). cbn [List.length firstn map snd]. split; [lia |].
      split; [rewrite <- app_assoc; reflexivity |].
      destruct r as [e | out]; [exact I |].
      destruct Hr as [-> ->]. split; [reflexivity |].
      rewrite <- app_assoc. reflexivity.
Qed.

Lemma enumerate1_firstn_snd {A : Type} (l : list A) (k : nat) :
  map snd (firstn k (enumerate1 l)) = firstn k l.
Proof. rewrite <- firstn_map, enumerate1_snd. reflexivity. Qed.

(** X17. The order of a merge, whatever its outcome: the videos are requested
    one after the other, in the order given; the transcoder runs only
    once every video has been requested, and the upload only after the
    transcoder.  With fewer than two videos nothing is called at all. *)
Theorem merge_videos_call_order
    (videos : list string) (output_key_prefix : option string)
    (reencode : bool) (crf preset aac_bitrate : string)
    (log log' : list event) (r : merge_exn + merge_result) :
  Merger.merge_videos menv videos output_key_prefix reencode crf preset aac_bitrate log
  = (r, log') ->
  exists (k : nat) (tail : list event),
    log' = log ++ map ev_http_get (firstn k videos) ++ tail
    /\ (k <= List.length videos)%nat
    /\ (tail = []
        \/ (k = List.length videos /\ (2 <= k)%nat
            /\ exists cmd, tail = [ev_ffmpeg cmd]
                           \/ exists key, tail = [ev_ffmpeg cmd; ev_put_object key]))
    /\ ((List.length videos < 2)%nat -> log' = log)
    /\ match r with
       | inr res => exists cmd, tail = [ev_ffmpeg cmd; ev_put_object (mr_key res)]
       | inl _ => True
       end.
Proof.
  unfold Merger.merge_videos. destruct (List.length videos <? 2)%nat eqn:E2.
  - intros H. injection H as <- <-. exists O, []. cbn. rewrite app_nil_r.
    repeat split; auto; lia.
  - apply Nat.ltb_ge in E2. intros H. apply mbind_split in H.
    destruct H as [(e & Hd & ->) | (local_inputs & log1 & Hd & H)].
    + apply download_loop_trace in Hd. destruct Hd as (k & Hk & -> & _).
      rewrite enumerate1_firstn_snd.
      assert (Hl : List.length (enumerate1 videos) = List.length videos)
        by (unfold enumerate1; rewrite length_combine, range_length; lia).
      exists k, []. rewrite app_nil_r. repeat split; auto; lia.
    + apply download_loop_trace in Hd. destruct Hd as (k & Hk & -> & -> & _).
      rewrite enumerate1_firstn_snd in H.
      assert (Hl : List.length (enumerate1 videos) = List.length videos)
        by (unfold enumerate1; rewrite length_combine, range_length; lia).
      rewrite Hl, firstn_all in H.
      unfold MIO.bind at 1, MIO.read at 1 in H.
      set (hex := uuid4_hex menv _) in H.
      set (cmd := Merger.merge_cmd menv _ _ _ _ _ _) in H.
      unfold MIO.bind at 1, MIO.try_except, MIO.call in H.
      destruct (ffmpeg (shared menv) _ cmd) as [e | u].
      * injection H as <- <-. exists (List.length videos), [ev_ffmpeg cmd].
        rewrite firstn_all, <- app_assoc.
        repeat split; auto; try lia. right. repeat split; try lia. exists cmd. auto.
      * unfold MIO.bind at 1, Merger.upload_file_to_r2, MIO.bind, MIO.call, MIO.ret,
          MIO.read in H.
        set (key := (key_prefix _ _ ++ _)%string) in H.
        destruct (put_object (shared menv) _ key _) as [e | u'].
        -- injection H as <- <-. exists (List.length videos), [ev_ffmpeg cmd; ev_put_object key].
           rewrite firstn_all, <- !app_assoc.
           repeat split; auto; try lia. right. repeat split; try lia. exists cmd. eauto.
        -- injection H as <- <-. exists (List.length videos), [ev_ffmpeg cmd; ev_put_object key].
           rewrite firstn_all, <- !app_assoc. cbn [mr_key].
           repeat split; auto; try lia; [| eauto].
           right. repeat split; try lia. exists cmd. eauto.
Qed.
End MergerFacts.

Lemma range_split (a b c : Z) : a <= b <= c -> Py.range a c = Py.range a b ++ Py.range b c.
Proof.
  intros H. remember (Z.to_nat (b - a)) as n eqn:En.
  revert a En H. induction n as [| n IH]; intros a En H.
  - replace b with a by lia. rewrite (range_empty a a) by lia. reflexivity.
  - rewrite (range_first a c), (range_first a b) by lia. cbn [app]. f_equal.
    apply IH; lia.
Qed.

Lemma enumerate1_app {A : Type} (l1 l2 : list A) :
  enumerate1 (l1 ++ l2)
  = enumerate1 l1
    ++ combine (Py.range (1 + Z.of_nat (List.length l1))
                  (1 + Z.of_nat (List.length (l1 ++ l2)))) l2.
Proof.
  unfold enumerate1.
  rewrite (range_split 1 (1 + Z.of_nat (List.length l1))
             (1 + Z.of_nat (List.length (l1 ++ l2)))) by (rewrite length_app; lia).
  generalize (Py.range (1 + Z.of_nat (List.length l1))
                (1 + Z.of_nat (List.length (l1 ++ l2)))).
  assert (Hl : List.length (Py.range 1 (1 + Z.of_nat (List.length l1))) = List.length l1)
    by (rewrite range_length; lia).
  revert Hl. generalize (Py.range 1 (1 + Z.of_nat (List.length l1))).
  induction l1 as [| x l1 IH]; intros idx Hl tail.
  - destruct idx; [reflexivity | discriminate Hl].
  - destruct idx as [| j idx]; [discriminate Hl |]. cbn. f_equal. apply IH.
    cbn in Hl. lia.
Qed.

Section MergerMore.
Variable menv : merge_collaborators.
Local Open Scope string_scope.
Local Open Scope list_scope.

Lemma download_loop_app (a b : list (Z * string)) (local_inputs : list path)
    (log : list event) :
  Merger.download_loop menv (a ++ b) local_inputs log
  = match Merger.download_loop menv a local_inputs log with
    | (inl e, log') => (inl e, log')
    | (inr l', log') => Merger.download_loop menv b l' log'
    end.
Proof.
  revert local_inputs log. induction a as [| [i url] a IH]; intros local_inputs log.
  - reflexivity.
  - cbn [app Merger.download_loop]. unfold MIO.bind.
    destruct (Merger.download_to_path menv url _ log) as [[e | u] log1]; [reflexivity |].
    apply IH.
Qed.

(** X18. The URLs are not checked up front: a URL that is not http(s) is
    noticed only when its turn comes, after the videos before it have been
    downloaded; the videos after it are never requested. *)
Theorem merge_videos_bad_url_found_late
    (good rest : list string) (bad : string) (output_key_prefix : option string)
    (reencode : bool) (crf preset aac_bitrate : string)
    (log log1 : list event) (locals : list path) :
  Fmt.startswith "http://" bad || Fmt.startswith "https://" bad = false ->
  (2 <= List.length (good ++ bad :: rest))%nat ->
  Merger.download_loop menv (enumerate1 good) [] log = (inr locals, log1) ->
  Merger.merge_videos menv (good ++ bad :: rest) output_key_prefix reencode crf preset
    aac_bitrate log
  = (inl (MRaise ValueError (msg_of msg_url_scheme)), log ++ map ev_http_get good).
Proof.
  intros Hbad Hlen Hgood. unfold Merger.merge_videos.
  replace (_ <? 2)%nat with false by (symmetry; apply Nat.ltb_ge; exact Hlen).
  unfold MIO.bind at 1. rewrite enumerate1_app, download_loop_app, Hgood.
  pose proof (download_loop_trace menv _ _ _ _ _ Hgood) as (k & _ & -> & -> & _).
  rewrite firstn_all, enumerate1_snd.
  rewrite (range_first (1 + Z.of_nat (List.length good))
             (1 + Z.of_nat (List.length (good ++ bad :: rest))))
    by (rewrite length_app; cbn [List.length]; lia).
  cbn [combine Merger.download_loop]. unfold MIO.bind, Merger.download_to_path.
  rewrite Hbad. reflexivity.
Qed.

(** X19. What a successful merge returns: the key is the prefix followed by
    joined_<hex>.mp4 for the identifier drawn once all videos were
    downloaded, the URL is the public URL of that key, the content type is
    video/mp4; and what it called: every video in order, one transcoder
    command in the mode asked for, one upload. *)
Theorem merge_videos_success
    (videos : list string) (output_key_prefix : option string)
    (reencode : bool) (crf preset aac_bitrate : string)
    (log log' : list event) (res : merge_result) :
  Merger.merge_videos menv videos output_key_prefix reencode crf preset aac_bitrate log
  = (inr res, log') ->
  let env := shared menv in
  let log1 := log ++ map ev_http_get videos in
  let out_name := ("joined_" ++ uuid4_hex menv log1 ++ ".mp4")%string in
  let cmd := Merger.merge_cmd menv reencode crf preset aac_bitrate
               (mk_path (td env) "inputs.txt") (mk_path (td env) out_name) in
  let key := (key_prefix env output_key_prefix ++ out_name)%string in
  (2 <= List.length videos)%nat
  /\ res = {| mr_url := join_public_url env key; mr_key := key;
              mr_size_bytes := st_size menv (log1 ++ [ev_ffmpeg cmd; ev_put_object key])
                                 (mk_path (td env) out_name);
              mr_content_type := "video/mp4" |}
  /\ log' = log1 ++ [ev_ffmpeg cmd; ev_put_object key].
Proof.
  unfold Merger.merge_videos. destruct (List.length videos <? 2)%nat eqn:E2; [discriminate |].
  apply Nat.ltb_ge in E2. intros H. cbv zeta.
  apply mbind_split in H. destruct H as [(e & _ & He) | (locals & log1 & Hd & H)];
    [discriminate He |].
  apply download_loop_trace in Hd. destruct Hd as (k & _ & -> & -> & _).
  rewrite enumerate1_firstn_snd in H.
  assert (Hl : List.length (enumerate1 videos) = List.length videos)
    by (unfold enumerate1; rewrite length_combine, range_length; lia).
  rewrite Hl, firstn_all in H.
  unfold MIO.bind at 1, MIO.read at 1 in H.
  unfold MIO.bind at 1, MIO.try_except, MIO.call in H.
  destruct (ffmpeg (shared menv) _ _) as [e | u]; [discriminate H |].
  unfold MIO.bind at 1, Merger.upload_file_to_r2, MIO.bind, MIO.call, MIO.ret, MIO.read in H.
  destruct (put_object (shared menv) _ _ _) as [e | u']; [discriminate H |].
  injection H as <- <-. rewrite <- !app_assoc. cbn [app].
  split; [exact E2 |]. split; reflexivity.
Qed.

(** X20. A transcoder failure is reported as a [RuntimeError] whose text
    depends on the mode: in copy mode it advises re-encoding.  Nothing is
    uploaded. *)
Theorem merge_videos_transcoder_failure
    (videos : list string) (output_key_prefix : option string)
    (reencode : bool) (crf preset aac_bitrate : string)
    (log : list event) (locals : list path) (e : exn) :
  let env := shared menv in
  let log1 := log ++ map ev_http_get videos in
  let out_name := ("joined_" ++ uuid4_hex menv log1 ++ ".mp4")%string in
  let cmd := Merger.merge_cmd menv reencode crf preset aac_bitrate
               (mk_path (td env) "inputs.txt") (mk_path (td env) out_name) in
  (2 <= List.length videos)%nat ->
  Merger.download_loop menv (enumerate1 videos) [] log = (inr locals, log1) ->
  ffmpeg env log1 cmd = inl e ->
  Merger.merge_videos menv videos output_key_prefix reencode crf preset aac_bitrate log
  = (inl (MRaise RuntimeError
            (if reencode then msg_join_failed (msg_of (str_of e))
             else msg_copy_failed (msg_of (str_of e)))),
     log1 ++ [ev_ffmpeg cmd]).
Proof.
  intros env log1 out_name cmd Hlen Hd Hf. unfold Merger.merge_videos.
  replace (_ <? 2)%nat with false by (symmetry; apply Nat.ltb_ge; exact Hlen).
  unfold MIO.bind at 1. rewrite Hd.
  unfold MIO.bind at 1, MIO.read at 1.
  unfold MIO.bind at 1, MIO.try_except, MIO.call.
  fold env. fold out_name. fold cmd. rewrite Hf. destruct e as [c m]. reflexivity.
Qed.

End MergerMore.

Section MergerWitnesses.
Local Open Scope string_scope.
Local Open Scope list_scope.

Lemma merge_videos_bad_url_found_late_witness :
  Merger.merge_videos (merge_cooperative (cooperative 9))
    (["https://a/1.mp4"; "https://a/2.mp4"] ++ "ftp://a/3.mp4" :: ["https://a/4.mp4"])
    None true "20" "veryfast" "192k" []
  = (inl (MRaise ValueError (msg_of msg_url_scheme)),
     [] ++ map ev_http_get ["https://a/1.mp4"; "https://a/2.mp4"]%string).
Proof.
  apply (merge_videos_bad_url_found_late (merge_cooperative (cooperative 9))
           ["https://a/1.mp4"; "https://a/2.mp4"]%string ["https://a/4.mp4"]%string
           "ftp://a/3.mp4" None true "20" "veryfast" "192k" []
           [ev_http_get "https://a/1.mp4"; ev_http_get "https://a/2.mp4"]%string
           [Merger.input_file (merge_cooperative (cooperative 9)) 1;
            Merger.input_file (merge_cooperative (cooperative 9)) 2]);
    [reflexivity | cbn; lia | reflexivity].
Defined.

Lemma merge_videos_success_witness :
  let menv' := merge_cooperative (cooperative 9) in
  let videos := ["https://a/1.mp4"; "https://a/2.mp4"]%string in
  let run := Merger.merge_videos menv' videos (Some "joins"%string) false "20" "veryfast"
               "192k" [] in
  let env := shared menv' in
  let log1 := [] ++ map ev_http_get videos in
  let out_name := ("joined_" ++ uuid4_hex menv' log1 ++ ".mp4")%string in
  let cmd := Merger.merge_cmd menv' false "20" "veryfast" "192k"
               (mk_path (td env) "inputs.txt") (mk_path (td env) out_name) in
  let key := (key_prefix env (Some "joins"%string) ++ out_name)%string in
  (2 <= List.length videos)%nat
  /\ {| mr_url := "https://cdn.example/joins/joined_0123456789abcdef0123456789abcdef.mp4";
        mr_key := "joins/joined_0123456789abcdef0123456789abcdef.mp4";
        mr_size_bytes := 4096; mr_content_type := "video/mp4" |}
     = {| mr_url := join_public_url env key; mr_key := key;
          mr_size_bytes := st_size menv' (log1 ++ [ev_ffmpeg cmd; ev_put_object key])
                             (mk_path (td env) out_name);
          mr_content_type := "video/mp4" |}
  /\ snd run = log1 ++ [ev_ffmpeg cmd; ev_put_object key].
Proof.
  intros menv' videos run.
  apply (merge_videos_success (merge_cooperative (cooperative 9)) videos
           (Some "joins"%string) false "20" "veryfast" "192k" [] (snd run)).
  reflexivity.
Defined.

Lemma merge_videos_transcoder_failure_witness :
  let menv' := merge_cooperative (transcoder_fails_after 0 9) in
  let videos := ["https://a/1.mp4"; "https://a/2.mp4"]%string in
  let env := shared menv' in
  let log1 := [] ++ map ev_http_get videos in
  let out_name := ("joined_" ++ uuid4_hex menv' log1 ++ ".mp4")%string in
  let cmd := Merger.merge_cmd menv' false "20" "veryfast" "192k"
               (mk_path (td env) "inputs.txt") (mk_path (td env) out_name) in
  Merger.merge_videos menv' videos None false "20" "veryfast" "192k" []
  = (inl (MRaise RuntimeError
            (if false
             then msg_join_failed
                    (msg_of (str_of (Raise RuntimeError (msg_text "ffmpeg: exit status 1"))))
             else msg_copy_failed
                    (msg_of (str_of (Raise RuntimeError (msg_text "ffmpeg: exit status 1")))))),
     log1 ++ [ev_ffmpeg cmd]).
Proof.
  intros menv' videos.
  apply (merge_videos_transcoder_failure (merge_cooperative (transcoder_fails_after 0 9))
           videos None false "20" "veryfast" "192k" []
           [Merger.input_file menv' 1; Merger.input_file menv' 2]
           (Raise RuntimeError (msg_text "ffmpeg: exit status 1")));
    [cbn; lia | reflexivity | reflexivity].
Defined.
End MergerWitnesses.

Lemma merge_videos_call_order_witness :
  let run := Merger.merge_videos (merge_cooperative (cooperative 9))
               ["https://a/1.mp4"; "ftp://a/2.mp4"; "https://a/3.mp4"]%string
               None true "20" "veryfast" "192k" [] in
  exists (k : nat) (tail : list event),
    snd run = [] ++ map ev_http_get
                      (firstn k ["https://a/1.mp4"; "ftp://a/2.mp4"; "https://a/3.mp4"]%string)
              ++ tail
    /\ (k <= 3)%nat
    /\ (tail = []
        \/ (k = 3%nat /\ (2 <= k)%nat
            /\ exists cmd, tail = [ev_ffmpeg cmd]
                           \/ exists key, tail = [ev_ffmpeg cmd; ev_put_object key]))
    /\ ((3 < 2)%nat -> snd run = [])
    /\ match fst run with
       | inr res => exists cmd, tail = [ev_ffmpeg cmd; ev_put_object (mr_key res)]
       | inl _ => True
       end.
Proof.
  intros run.
  apply (merge_videos_call_order (merge_cooperative (cooperative 9))
           ["https://a/1.mp4"; "ftp://a/2.mp4"; "https://a/3.mp4"]%string
           None true "20" "veryfast" "192k" [] (snd run) (fst run)).
  apply surjective_pairing.
Defined.

(** ** The request handler *)

Section HandlerFacts.
Variable bi : builtins.
Variable menv : merge_collaborators.
Local Open Scope string_scope.
Local Open Scope list_scope.

Lemma split_audio_outcome (task : string) (data : list (string * pyval))
    (log log' : list event) (o : outcome) :
  Handler.split_audio bi menv task data log = (o, log') ->
  exists r, o = Returns r
            /\ (forall m, r = error_response BadRequest m -> log' = log).
Proof.
  unfold Handler.split_audio.
  destruct (Handler.get "segments" data) as [sv |];
    [| intros H; injection H as <- <-; eauto].
  destruct (Handler.get "audio_url" data) as [av |];
    [| intros H; injection H as <- <-; eauto].
  destruct (py_int bi sv) as [text | n];
    [intros H; injection H as <- <-; eauto |].
  destruct (match Handler.get "video_duration" data with
            | Some PNone | None => inr None
            | Some _ => _
            end) as [text | vd];
    [intros H; injection H as <- <-; eauto |].
  destruct (process_audio_split _ _ _ _ _ _ _ _ _ _ _) as [[e | res] l];
    intros H; injection H as <- <-; eexists; (split; [reflexivity | discriminate]).
Qed.

Lemma merge_videos_outcome (task : string) (data : list (string * pyval))
    (log log' : list event) (o : outcome) :
  Handler.merge_videos bi menv task data log = (o, log') ->
  exists r, o = Returns r
            /\ (forall m, r = error_response BadRequest m -> log' = log).
Proof.
  unfold Handler.merge_videos.
  destruct (Handler.get "videos" data) as [[| | | | | vids |] |];
    try (intros H; injection H as <- <-; eauto).
  destruct (List.length vids <? 2)%nat; [intros H; injection H as <- <-; eauto |].
  destruct (Merger.merge_videos _ _ _ _ _ _ _ _) as [[e | res] l];
    intros H; injection H as <- <-; eexists; (split; [reflexivity | discriminate]).
Qed.

(** X21. A BadRequest response means nothing was called: every request the
    handler refuses itself is refused before any download, subprocess or
    upload. *)
Theorem bad_request_makes_no_call (event_value : pyval) (log log' : list event)
    (m : handler_message) :
  Handler.rp_handler bi menv event_value log
  = (Returns (error_response BadRequest m), log') ->
  log' = log.
Proof.
  unfold Handler.rp_handler.
  destruct (Handler.task_value _) as [| | | | s | |]; try discriminate.
  destruct (String.eqb (py_strip bi s) ""); [intros H; injection H as _ <-; reflexivity |].
  destruct (String.eqb (py_strip bi s) "split_audio").
  { intros H. destruct (split_audio_outcome _ _ _ _ _ H) as (r & E & Hr).
    injection E as <-. eapply Hr. reflexivity. }
  destruct (String.eqb (py_strip bi s) "merge_videos").
  { intros H. destruct (merge_videos_outcome _ _ _ _ _ H) as (r & E & Hr).
    injection E as <-. eapply Hr. reflexivity. }
  intros H. injection H as _ <-. reflexivity.
Qed.

(** X22. The handler lets an exception through in one case only: when the
    request's "task" is a true value that is not a string (a number, a
    non-empty list, ...), on which [.strip()] fails outside the [try]. *)
Theorem handler_raises_iff (event_value : pyval) (log : list event) :
  fst (Handler.rp_handler bi menv event_value log) = RaisesAttributeError
  <-> exists v,
        Handler.get "task" (Handler._payload_from_event event_value) = Some v
        /\ Handler.truthy v = true
        /\ forall s, v <> PStr s.
Proof.
  unfold Handler.rp_handler, Handler.task_value.
  set (data := Handler._payload_from_event event_value).
  destruct (Handler.get "task" data) as [v |].
  - destruct (Handler.truthy v) eqn:T.
    + destruct v as [| b | z | q | s | l | d];
        try (split; [intros _; eexists; repeat split; [exact T | discriminate] | reflexivity]).
      split.
      * intros H. exfalso. revert H.
        destruct (String.eqb (py_strip bi s) ""); [discriminate |].
        destruct (String.eqb (py_strip bi s) "split_audio").
        { destruct (Handler.split_audio _ _ _ _ _) as [o l] eqn:E.
          destruct (split_audio_outcome _ _ _ _ _ E) as (r & -> & _). discriminate. }
        destruct (String.eqb (py_strip bi s) "merge_videos").
        { destruct (Handler.merge_videos _ _ _ _ _) as [o l] eqn:E.
          destruct (merge_videos_outcome _ _ _ _ _ E) as (r & -> & _). discriminate. }
        discriminate.
      * intros (v & E & _ & N). injection E as <-. exfalso. apply (N s). reflexivity.
    + split.
      * intros H. exfalso. revert H.
        destruct (String.eqb (py_strip bi "") ""); [discriminate |].
        destruct (String.eqb (py_strip bi "") "split_audio").
        { destruct (Handler.split_audio _ _ _ _ _) as [o l] eqn:E.
          destruct (split_audio_outcome _ _ _ _ _ E) as (r & -> & _). discriminate. }
        destruct (String.eqb (py_strip bi "") "merge_videos").
        { destruct (Handler.merge_videos _ _ _ _ _) as [o l] eqn:E.
          destruct (merge_videos_outcome _ _ _ _ _ E) as (r & -> & _). discriminate. }
        discriminate.
      * intros (v' & E & T' & _). injection E as <-. congruence.
  - split.
    + intros H. exfalso. revert H.
      destruct (String.eqb (py_strip bi "") ""); [discriminate |].
      destruct (String.eqb (py_strip bi "") "split_audio").
      { destruct (Handler.split_audio _ _ _ _ _) as [o l] eqn:E.
        destruct (split_audio_outcome _ _ _ _ _ E) as (r & -> & _). discriminate. }
      destruct (String.eqb (py_strip bi "") "merge_videos").
      { destruct (Handler.merge_videos _ _ _ _ _) as [o l] eqn:E.
        destruct (merge_videos_outcome _ _ _ _ _ E) as (r & -> & _). discriminate. }
      discriminate.
    + intros (v & E & _). discriminate E.
Qed.

(** X23. When the event carries a dictionary under "input", that dictionary is
    the whole request: everything else in the event is ignored, the
    event's own "task" included. *)
Theorem input_envelope_is_the_request (d rest : list (string * pyval))
    (log : list event) :
  (forall inner, Handler.get "input" d <> Some (PDict inner)) ->
  Handler.rp_handler bi menv (PDict (("input", PDict d) :: rest)) log
  = Handler.rp_handler bi menv (PDict d) log.
Proof.
  intros H. unfold Handler.rp_handler.
  assert (E : Handler._payload_from_event (PDict d) = d).
  { unfold Handler._payload_from_event.
    destruct (Handler.get "input" d) as [[| | | | | | inner] |]; try reflexivity.
    exfalso. apply (H inner). reflexivity. }
  rewrite E. reflexivity.
Qed.

(** X24. A split request that gives only "task", "segments", "audio_url" and
    "video_duration" runs [process_audio_split] with the defaults codec
    "mp3", quality "2", extension "mp3", no phase inversion, no video URL
    and the default key prefix; its entries come back as the result, its
    exception as an InternalError response. *)
Theorem split_request_defaults
    (data : list (string * pyval)) (t : string) (sv av dv : pyval)
    (segments : Z) (cycle : Q) (log : list event) :
  Handler.get "task" data = Some (PStr t) -> t <> "" ->
  py_strip bi t = "split_audio" ->
  Handler.get "segments" data = Some sv -> py_int bi sv = inr segments ->
  Handler.get "audio_url" data = Some av ->
  Handler.get "video_duration" data = Some dv -> dv <> PNone ->
  py_float bi dv = inr cycle ->
  Handler.get "codec" data = None -> Handler.get "quality" data = None ->
  Handler.get "ext" data = None -> Handler.get "first_inverted" data = None ->
  Handler.get "video_url" data = None -> Handler.get "r2_prefix" data = None ->
  (forall inner, Handler.get "input" data <> Some (PDict inner)) ->
  Handler.rp_handler bi menv (PDict data) log
  = split_response "split_audio"
      (process_audio_split (shared menv) segments (py_str bi av)
         (py_str bi (PStr "mp3")) (py_str bi (PStr "2")) (py_str bi (PStr "mp3"))
         false (Some cycle) None None log).
Proof.
  intros Ht Hne Hstrip Hs Hint Ha Hd Hdn Hfl Hc Hq He Hfi Hvu Hr Hin.
  unfold Handler.rp_handler.
  assert (E : Handler._payload_from_event (PDict data) = data).
  { unfold Handler._payload_from_event.
    destruct (Handler.get "input" data) as [[| | | | | | inner] |]; try reflexivity.
    exfalso. apply (Hin inner). reflexivity. }
  rewrite E. unfold Handler.task_value. rewrite Ht. cbn [Handler.truthy].
  replace (String.eqb t "") with false by (symmetry; apply String.eqb_neq; exact Hne).
  cbn [negb]. rewrite Hstrip. cbn [String.eqb Ascii.eqb Bool.eqb andb].
  change (String.eqb "split_audio" "") with false.
  change (String.eqb "split_audio" "split_audio") with true. cbv iota.
  unfold Handler.split_audio, Handler.get_default, Handler.if_truthy, Handler._as_bool.
  rewrite Hs, Ha, Hint, Hd, Hc, Hq, He, Hfi, Hvu, Hr.
  destruct dv; try (exfalso; apply Hdn; reflexivity); rewrite Hfl; reflexivity.
Qed.
End HandlerFacts.

Section HandlerWitnesses.
Local Open Scope string_scope.
Local Open Scope list_scope.

Lemma bad_request_makes_no_call_witness :
  let ev := PDict [("task", PStr "merge_videos");
                   ("videos", PList [PStr "https://a/1.mp4"])] in
  Handler.rp_handler sample_builtins (merge_cooperative (cooperative 9)) ev []
  = (Returns (error_response BadRequest hm_videos), [])
  /\ ([] : list event) = [].
Proof.
  split; [reflexivity |].
  apply (bad_request_makes_no_call sample_builtins (merge_cooperative (cooperative 9))
           (PDict [("task", PStr "merge_videos");
                   ("videos", PList [PStr "https://a/1.mp4"])]) [] [] hm_videos).
  reflexivity.
Defined.

Lemma handler_raises_iff_witness :
  fst (Handler.rp_handler sample_builtins (merge_cooperative (cooperative 9))
         (PDict [("input", PDict [("task", PList [PStr "split_audio"])])]) [])
  = RaisesAttributeError.
Proof.
  apply (proj2 (handler_raises_iff sample_builtins (merge_cooperative (cooperative 9))
                  (PDict [("input", PDict [("task", PList [PStr "split_audio"])])]) [])).
  exists (PList [PStr "split_audio"]).
  split; [reflexivity | split; [reflexivity | discriminate]].
Defined.

Lemma input_envelope_is_the_request_witness :
  let d := [("task", PStr "merge_videos"); ("videos", PList [])] in
  let rest := [("task", PStr "split_audio"); ("segments", PInt 2)] in
  (forall inner, Handler.get "input" d <> Some (PDict inner))
  /\ Handler.rp_handler sample_builtins (merge_cooperative (cooperative 9))
       (PDict (("input", PDict d) :: rest)) []
     = Handler.rp_handler sample_builtins (merge_cooperative (cooperative 9)) (PDict d) [].
Proof.
  assert (H : forall inner,
             Handler.get "input" [("task", PStr "merge_videos"); ("videos", PList [])]
             <> Some (PDict inner)) by (intros inner; discriminate).
  split; [exact H |].
  apply (input_envelope_is_the_request sample_builtins (merge_cooperative (cooperative 9))
           [("task", PStr "merge_videos"); ("videos", PList [])]
           [("task", PStr "split_audio"); ("segments", PInt 2)] [] H).
Defined.

Lemma split_request_defaults_witness :
  let data := [("task", PStr "split_audio"); ("segments", PInt 2);
               ("audio_url", PStr "https://a/x.mp3"); ("video_duration", PInt 3)] in
  Handler.rp_handler sample_builtins (merge_cooperative (cooperative 10)) (PDict data) []
  = split_response "split_audio"
      (process_audio_split (cooperative 10) 2 "https://a/x.mp3" "mp3" "2" "mp3" false
         (Some 3%Q) None None []).
Proof.
  apply (split_request_defaults sample_builtins (merge_cooperative (cooperative 10))
           [("task", PStr "split_audio"); ("segments", PInt 2);
            ("audio_url", PStr "https://a/x.mp3"); ("video_duration", PInt 3)]
           "split_audio" (PInt 2) (PStr "https://a/x.mp3") (PInt 3) 2 3%Q []);
    try reflexivity; try discriminate; intros inner; discriminate.
Defined.
End HandlerWitnesses.

(** ** The key prefix between the handler and the workers *)

Section PrefixFacts.
Local Open Scope string_scope.

Lemma rstrip_slash_idempotent (s : string) :
  Fmt.rstrip_slash (Fmt.rstrip_slash s) = Fmt.rstrip_slash s.
Proof.
  induction s as [| c s IH]; [reflexivity |].
  cbn [Fmt.rstrip_slash].
  destruct (Fmt.rstrip_slash s) as [| d r] eqn:E.
  - destruct (Ascii.eqb c "/") eqn:C; [reflexivity |].
    cbn [Fmt.rstrip_slash]. rewrite C. reflexivity.
  - cbn [Fmt.rstrip_slash]. cbn [Fmt.rstrip_slash] in IH. rewrite IH. reflexivity.
Qed.

Lemma lstrip_slash_head (s : string) :
  Fmt.lstrip_slash s = ""
  \/ exists c r, Fmt.lstrip_slash s = String c r /\ Ascii.eqb c "/" = false.
Proof.
  induction s as [| c s IH]; [left; reflexivity |].
  destruct (Ascii.eqb c "/") eqn:C.
  - apply Ascii.eqb_eq in C. subst c. exact IH.
  - right. exists c, s. split; [| exact C].
    cbn [Fmt.lstrip_slash].
    destruct c as [[] [] [] [] [] [] [] []]; try reflexivity. discriminate C.
Qed.

Lemma lstrip_slash_keeps (c : ascii) (r : string) :
  Ascii.eqb c "/" = false -> Fmt.lstrip_slash (String c r) = String c r.
Proof.
  intros C. cbn [Fmt.lstrip_slash].
  destruct c as [[] [] [] [] [] [] [] []]; try reflexivity. discriminate C.
Qed.

Lemma strip_slash_head (s : string) :
  Fmt.strip_slash s = ""
  \/ exists c r, Fmt.strip_slash s = String c r /\ Ascii.eqb c "/" = false.
Proof.
  unfold Fmt.strip_slash.
  destruct (lstrip_slash_head s) as [-> | (c & r & -> & C)]; [left; reflexivity |].
  right. cbn [Fmt.rstrip_slash].
  destruct (Fmt.rstrip_slash r) as [| d r'].
  - rewrite C. exists c, "". split; [reflexivity | exact C].
  - exists c, (String d r'). split; [reflexivity | exact C].
Qed.

Lemma strip_slash_idempotent (s : string) :
  Fmt.strip_slash (Fmt.strip_slash s) = Fmt.strip_slash s.
Proof.
  destruct (strip_slash_head s) as [E | (c & r & E & C)].
  - rewrite E. reflexivity.
  - unfold Fmt.strip_slash at 1. rewrite E, (lstrip_slash_keeps c r C), <- E.
    unfold Fmt.strip_slash. apply rstrip_slash_idempotent.
Qed.

Lemma strip_slash_app_slash (s : string) :
  Fmt.strip_slash (Fmt.strip_slash s ++ "/") = Fmt.strip_slash s.
Proof.
  destruct (strip_slash_head s) as [E | (c & r & E & C)].
  - rewrite E. reflexivity.
  - unfold Fmt.strip_slash at 1. rewrite E. cbn [append].
    rewrite (lstrip_slash_keeps c _ C).
    change (String c (r ++ "/")) with (String c r ++ "/").
    rewrite rstrip_slash_app_slash, <- E.
    unfold Fmt.strip_slash. apply rstrip_slash_idempotent.
Qed.

(** The worker's second stripping changes nothing. *)
Lemma key_prefix_of_split_prefix (env : collaborators) (p : string) :
  key_prefix env (Some (Fmt.strip_slash p ++ "/")) = Fmt.strip_slash p ++ "/".
Proof.
  unfold key_prefix.
  destruct (Fmt.strip_slash p ++ "/") as [| c r] eqn:E.
  - destruct (Fmt.strip_slash p); discriminate E.
  - rewrite <- E. rewrite strip_slash_app_slash. reflexivity.
Qed.

Lemma key_prefix_of_merge_prefix (env : collaborators) (p : string) :
  key_prefix env (Some (Fmt.strip_slash p))
  = if String.eqb (Fmt.strip_slash p) "" then R2_PREFIX_DEFAULT env
    else Fmt.strip_slash p ++ "/".
Proof.
  unfold key_prefix. pose proof (strip_slash_idempotent p) as I.
  destruct (Fmt.strip_slash p) as [| c r]; [reflexivity |].
  rewrite I. reflexivity.
Qed.
End PrefixFacts.

Section HandlerPrefix.
Variable bi : builtins.
Variable menv : merge_collaborators.
Local Open Scope string_scope.
Local Open Scope list_scope.

(** X25. A split request with a prefix: the handler hands
    [str(r2_prefix).strip("/") + "/"] to [process_audio_split], which
    strips and appends once more without effect, so the key prefix of
    the run is what the handler handed on. *)
Theorem handler_prefix_normalised_once
    (data : list (string * pyval)) (t : string) (sv av pv : pyval)
    (segments : Z) (log : list event) :
  Handler.get "task" data = Some (PStr t) -> t <> "" ->
  py_strip bi t = "split_audio" ->
  Handler.get "segments" data = Some sv -> py_int bi sv = inr segments ->
  Handler.get "audio_url" data = Some av ->
  Handler.get "video_duration" data = None ->
  Handler.get "r2_prefix" data = Some pv -> Handler.truthy pv = true ->
  (forall inner, Handler.get "input" data <> Some (PDict inner)) ->
  let handed := (Fmt.strip_slash (py_str bi pv) ++ "/")%string in
  exists (codec quality ext : string) (first_inverted : bool)
         (video_url : option string),
    Handler.rp_handler bi menv (PDict data) log
    = split_response "split_audio"
        (process_audio_split (shared menv) segments (py_str bi av) codec quality ext
           first_inverted None video_url (Some handed) log)
    /\ key_prefix (shared menv) (Some handed) = handed.
Proof.
  intros Ht Hne Hstrip Hs Hint Ha Hd Hp Htruthy Hin handed.
  exists (py_str bi (Handler.get_default "codec" data (PStr "mp3"))),
    (py_str bi (Handler.get_default "quality" data (PStr "2"))),
    (py_str bi (Handler.get_default "ext" data (PStr "mp3"))),
    (Handler._as_bool bi (Handler.get "first_inverted" data) false),
    (Handler.if_truthy "video_url" data (py_str bi)).
  split; [| apply key_prefix_of_split_prefix].
  unfold Handler.rp_handler.
  assert (E : Handler._payload_from_event (PDict data) = data).
  { unfold Handler._payload_from_event.
    destruct (Handler.get "input" data) as [[| | | | | | inner] |]; try reflexivity.
    exfalso. apply (Hin inner). reflexivity. }
  rewrite E. unfold Handler.task_value. rewrite Ht. cbn [Handler.truthy].
  replace (String.eqb t "") with false by (symmetry; apply String.eqb_neq; exact Hne).
  cbn [negb]. rewrite Hstrip.
  change (String.eqb "split_audio" "") with false.
  change (String.eqb "split_audio" "split_audio") with true. cbv iota.
  unfold Handler.split_audio. rewrite Hs, Ha, Hint, Hd.
  unfold Handler.if_truthy at 2. rewrite Hp, Htruthy. reflexivity.
Qed.

(** X30. A merge request with a prefix: the handler hands
    [str(output_key_prefix).strip("/")] to [merge_videos], whose key
    prefix is that with a "/" appended; a prefix made of slashes only is
    handed on empty and the merge falls back to the default prefix. *)
Theorem merge_prefix_normalised_once
    (data : list (string * pyval)) (t : string) (vids : list pyval) (pv : pyval)
    (log : list event) :
  Handler.get "task" data = Some (PStr t) -> t <> "" ->
  py_strip bi t = "merge_videos" ->
  Handler.get "videos" data = Some (PList vids) -> (2 <= List.length vids)%nat ->
  Handler.get "output_key_prefix" data = Some pv -> Handler.truthy pv = true ->
  (forall inner, Handler.get "input" data <> Some (PDict inner)) ->
  let handed := Fmt.strip_slash (py_str bi pv) in
  exists (reencode : bool) (crf preset aac_bitrate : string),
    Handler.rp_handler bi menv (PDict data) log
    = merge_response "merge_videos"
        (Merger.merge_videos menv (map (py_str bi) vids) (Some handed) reencode crf
           preset aac_bitrate log)
    /\ key_prefix (shared menv) (Some handed)
       = (if String.eqb handed "" then R2_PREFIX_DEFAULT (shared menv)
          else handed ++ "/")%string.
Proof.
  intros Ht Hne Hstrip Hv Hlen Hp Htruthy Hin handed.
  exists (Handler._as_bool bi (Handler.get "reencode" data) true),
    (py_str bi (Handler.get_default "crf" data (PStr "20"))),
    (py_str bi (Handler.get_default "preset" data (PStr "veryfast"))),
    (py_str bi (Handler.get_default "aac_bitrate" data (PStr "192k"))).
  split; [| apply key_prefix_of_merge_prefix].
  unfold Handler.rp_handler.
  assert (E : Handler._payload_from_event (PDict data) = data).
  { unfold Handler._payload_from_event.
    destruct (Handler.get "input" data) as [[| | | | | | inner] |]; try reflexivity.
    exfalso. apply (Hin inner). reflexivity. }
  rewrite E. unfold Handler.task_value. rewrite Ht. cbn [Handler.truthy].
  replace (String.eqb t "") with false by (symmetry; apply String.eqb_neq; exact Hne).
  cbn [negb]. rewrite Hstrip.
  change (String.eqb "merge_videos" "") with false.
  change (String.eqb "merge_videos" "split_audio") with false.
  change (String.eqb "merge_videos" "merge_videos") with true. cbv iota.
  unfold Handler.merge_videos. rewrite Hv.
  replace (List.length vids <? 2)%nat with false
    by (symmetry; apply Nat.ltb_ge; exact Hlen).
  unfold Handler.if_truthy. rewrite Hp, Htruthy. reflexivity.
Qed.
End HandlerPrefix.

Section HandlerPrefixWitnesses.
Local Open Scope string_scope.
Local Open Scope list_scope.

Lemma handler_prefix_normalised_once_witness :
  let data := [("task", PStr "split_audio"); ("segments", PInt 2);
               ("audio_url", PStr "https://a/x.mp3"); ("video_url", PStr "https://a/v.mp4");
               ("r2_prefix", PStr "//out/a//")] in
  exists (codec quality ext : string) (first_inverted : bool)
         (video_url : option string),
    Handler.rp_handler sample_builtins (merge_cooperative (cooperative 10)) (PDict data) []
    = split_response "split_audio"
        (process_audio_split (cooperative 10) 2 "https://a/x.mp3" codec quality ext
           first_inverted None video_url (Some "out/a/") [])
    /\ key_prefix (cooperative 10) (Some "out/a/") = "out/a/".
Proof.
  apply (handler_prefix_normalised_once sample_builtins (merge_cooperative (cooperative 10))
           [("task", PStr "split_audio"); ("segments", PInt 2);
            ("audio_url", PStr "https://a/x.mp3"); ("video_url", PStr "https://a/v.mp4");
            ("r2_prefix", PStr "//out/a//")]
           "split_audio" (PInt 2) (PStr "https://a/x.mp3") (PStr "//out/a//") 2 []);
    try reflexivity; try discriminate; intros inner; discriminate.
Defined.

(** A prefix of slashes only: the merge uses the default prefix. *)
Lemma merge_prefix_normalised_once_witness :
  let data := [("task", PStr "merge_videos");
               ("videos", PList [PStr "https://a/1.mp4"; PStr "https://a/2.mp4"]);
               ("output_key_prefix", PStr "//")] in
  exists (reencode : bool) (crf preset aac_bitrate : string),
    Handler.rp_handler sample_builtins (merge_cooperative (cooperative 9)) (PDict data) []
    = merge_response "merge_videos"
        (Merger.merge_videos (merge_cooperative (cooperative 9))
           ["https://a/1.mp4"; "https://a/2.mp4"] (Some "") reencode crf preset
           aac_bitrate [])
    /\ key_prefix (cooperative 9) (Some "") = "chunks/".
Proof.
  apply (merge_prefix_normalised_once sample_builtins (merge_cooperative (cooperative 9))
           [("task", PStr "merge_videos");
            ("videos", PList [PStr "https://a/1.mp4"; PStr "https://a/2.mp4"]);
            ("output_key_prefix", PStr "//")]
           "merge_videos" [PStr "https://a/1.mp4"; PStr "https://a/2.mp4"] (PStr "//") []);
    try reflexivity; try discriminate; try (cbn; lia); intros inner; discriminate.
Defined.
End HandlerPrefixWitnesses.

(** ** File names and keys never collide *)

Section Distinct.
Local Open Scope string_scope.

Lemma read_decimal_zeros (k : nat) (c : ascii) (s : string) :
  read_decimal (Fmt.zeros k ++ String c s) = read_decimal (String c s).
Proof.
  assert (E : forall r, r <> "" ->
                read_decimal r
                = option_map (fun d => Z.of_N (N.of_uint d)) (NilEmpty.uint_of_string r)).
  { intros [| x r] Hr; [contradiction Hr; reflexivity | reflexivity]. }
  rewrite (E (String c s)) by discriminate.
  rewrite E by (destruct k; discriminate).
  generalize (String c s). intros t.
  induction k as [| k IH]; [reflexivity |].
  rewrite <- IH. cbn [Fmt.zeros append NilEmpty.uint_of_string].
  destruct (NilEmpty.uint_of_string (Fmt.zeros k ++ t)) as [d |]; reflexivity.
Qed.

Lemma read_decimal_digits (z : Z) : 0 <= z -> read_decimal (Fmt.digits z) = Some z.
Proof.
  intros Hz. unfold read_decimal, Fmt.digits.
  rewrite NilZero.usu.
  - cbn [option_map]. rewrite DecimalN.Unsigned.of_to, Z2N.id by exact Hz. reflexivity.
  - destruct (Z.to_N z) as [| p]; [discriminate |].
    apply DecimalPos.Unsigned.to_uint_nonnil.
Qed.

Lemma zero_padded_reads_back (width : nat) (z : Z) :
  0 <= z -> read_decimal (Fmt.zero_padded width z) = Some z.
Proof.
  intros Hz. unfold Fmt.zero_padded.
  replace (z <? 0)%Z with false by (symmetry; apply Z.ltb_ge; exact Hz).
  cbn [append]. rewrite Z.abs_eq by exact Hz.
  pose proof (read_decimal_digits z Hz) as R.
  destruct (Fmt.digits z) as [| c r]; [discriminate R |].
  rewrite read_decimal_zeros. exact R.
Qed.

Lemma zero_padded_injective (width : nat) (i j : Z) :
  0 <= i -> 0 <= j -> Fmt.zero_padded width i = Fmt.zero_padded width j -> i = j.
Proof.
  intros Hi Hj E.
  pose proof (zero_padded_reads_back width i Hi) as Ri.
  rewrite E, (zero_padded_reads_back width j Hj) in Ri. congruence.
Qed.

Lemma append_length (a b : string) :
  String.length (a ++ b) = (String.length a + String.length b)%nat.
Proof. induction a as [| c a IH]; cbn; [reflexivity | rewrite IH; reflexivity]. Qed.

Lemma append_cancel_r (a b c : string) : a ++ c = b ++ c -> a = b.
Proof.
  revert b. induction a as [| x a IH]; intros [| y b] H.
  - reflexivity.
  - apply (f_equal String.length) in H. cbn in H. rewrite append_length in H. lia.
  - apply (f_equal String.length) in H. cbn in H. rewrite append_length in H. lia.
  - cbn in H. injection H as -> H. f_equal. apply IH. exact H.
Qed.

Lemma range_NoDup (a b : Z) : NoDup (Py.range a b).
Proof.
  unfold Py.range. apply NoDup_map_NoDup_ForallPairs; [| apply seq_NoDup].
  intros x y _ _ E. lia.
Qed.

Lemma range_bounds (a b z : Z) : In z (Py.range a b) -> a <= z < b.
Proof.
  unfold Py.range. intros H. apply in_map_iff in H. destruct H as (n & <- & Hn).
  apply in_seq in Hn. lia.
Qed.

Lemma enumerate1_fst {A : Type} (l : list A) :
  map fst (enumerate1 l) = Py.range 1 (1 + Z.of_nat (List.length l)).
Proof.
  unfold enumerate1.
  assert (H : forall (idx : list Z) (l : list A),
             List.length idx = List.length l -> map fst (combine idx l) = idx).
  { clear. induction idx as [| j idx IH]; intros [| x l] Hl; try reflexivity;
      try discriminate Hl.
    cbn. f_equal. apply IH. cbn in Hl. lia. }
  apply H. rewrite range_length. lia.
Qed.

(** X27. The videos of a merge are downloaded to pairwise distinct files
    in_001.mp4, in_002.mp4, ..., one per URL in the order given, also when
    the same URL is listed twice. *)
Theorem merge_inputs_distinct
    (menv : merge_collaborators) (videos : list string)
    (log log1 : list event) (locals : list path) :
  Merger.download_loop menv (enumerate1 videos) [] log = (inr locals, log1) ->
  NoDup locals
  /\ locals = map (Merger.input_file menv) (Py.range 1 (1 + Z.of_nat (List.length videos))).
Proof.
  intros H. apply download_loop_trace in H. destruct H as (k & _ & _ & _ & ->).
  cbn [app]. rewrite <- (map_map fst (Merger.input_file menv)), enumerate1_fst.
  split; [| reflexivity].
  apply NoDup_map_NoDup_ForallPairs; [| apply range_NoDup].
  intros i j Hi Hj E. apply range_bounds in Hi, Hj.
  unfold Merger.input_file in E. injection E as E.
  apply append_cancel_r in E.
  apply zero_padded_injective in E; lia.
Qed.

(** X28. The merger's downloads have a cap of their own: 8 000 000 000 bytes
    per video, against 1 500 000 000 for the splitter's audio. *)
Theorem merger_download_size_cap
    (menv : merge_collaborators) (url : string) (dst : path) (log : list event)
    (chunks : list Z) :
  Fmt.startswith "http://" url || Fmt.startswith "https://" url = true ->
  http_get (shared menv) log url = inr chunks ->
  Forall (fun c => 0 <= c) chunks ->
  Merger.download_to_path menv url dst log
  = (if (fold_right Z.add 0 chunks <=? 8000000000)%Z then inr tt
     else inl (MRaise ValueError (msg_of (msg_too_large 8000000000))),
     (log ++ [ev_http_get url])%list).
Proof.
  intros Hurl Hget Hc. unfold Merger.download_to_path. rewrite Hurl. cbn [negb].
  unfold MIO.bind, MIO.call, MIO.lift. rewrite Hget.
  rewrite write_chunks_cap by (assumption || lia). rewrite Z.add_0_l.
  destruct (fold_right Z.add 0 chunks <=? 8000000000)%Z; reflexivity.
Qed.
End Distinct.

Section DistinctWitnesses.
Local Open Scope string_scope.
Local Open Scope list_scope.

(** The same URL twice gives two files. *)
Lemma merge_inputs_distinct_witness :
  let menv := merge_cooperative (cooperative 9) in
  let locals := [Merger.input_file menv 1; Merger.input_file menv 2] in
  NoDup locals
  /\ locals = map (Merger.input_file menv) (Py.range 1 (1 + Z.of_nat 2)).
Proof.
  apply (merge_inputs_distinct (merge_cooperative (cooperative 9))
           ["https://a/1.mp4"; "https://a/1.mp4"] []
           [ev_http_get "https://a/1.mp4"; ev_http_get "https://a/1.mp4"]).
  reflexivity.
Defined.

(** Two chunks of 1 GB each pass the merger's cap. *)
Lemma merger_download_size_cap_witness :
  Merger.download_to_path
    (merge_cooperative
       {| FFMPEG := "ffmpeg"; FFPROBE := "ffprobe"; R2_PREFIX_DEFAULT := "chunks/";
          td := "/tmp/td";
          http_get := fun _ _ => inr [1000000000; 0; 1000000000];
          ffprobe := fun _ _ => inr 9%Q; ffmpeg := fun _ _ => inr tt;
          put_object := fun _ _ _ => inr tt; join_public_url := fun k => k |})
    "https://a/1.mp4" (mk_path "/tmp/td" "in_001.mp4") []
  = (inr tt, [ev_http_get "https://a/1.mp4"]).
Proof.
  apply (merger_download_size_cap _ "https://a/1.mp4" (mk_path "/tmp/td" "in_001.mp4") []
           [1000000000; 0; 1000000000]);
    [reflexivity | reflexivity | repeat constructor; lia].
Defined.
End DistinctWitnesses.

(** ** Merge requests *)

Section MergeRequests.
Variable bi : builtins.
Variable menv : merge_collaborators.
Local Open Scope string_scope.
Local Open Scope list_scope.

(** X29. A merge request that gives only "task" and a list of two or more
    "videos" runs [merge_videos] on the videos as strings, in the order
    given, with re-encoding on, crf "20", preset "veryfast", audio bitrate
    "192k" and the default key prefix; its result comes back as the
    result, its exception as an InternalError response. *)
Theorem merge_request_defaults
    (data : list (string * pyval)) (t : string) (vids : list pyval)
    (log : list event) :
  Handler.get "task" data = Some (PStr t) -> t <> "" ->
  py_strip bi t = "merge_videos" ->
  Handler.get "videos" data = Some (PList vids) -> (2 <= List.length vids)%nat ->
  Handler.get "output_key_prefix" data = None ->
  Handler.get "reencode" data = None -> Handler.get "crf" data = None ->
  Handler.get "preset" data = None -> Handler.get "aac_bitrate" data = None ->
  (forall inner, Handler.get "input" data <> Some (PDict inner)) ->
  Handler.rp_handler bi menv (PDict data) log
  = merge_response "merge_videos"
      (Merger.merge_videos menv (map (py_str bi) vids) None true
         (py_str bi (PStr "20")) (py_str bi (PStr "veryfast")) (py_str bi (PStr "192k"))
         log).
Proof.
  intros Ht Hne Hstrip Hv Hlen Hp Hr Hc Hpr Ha Hin.
  unfold Handler.rp_handler.
  assert (E : Handler._payload_from_event (PDict data) = data).
  { unfold Handler._payload_from_event.
    destruct (Handler.get "input" data) as [[| | | | | | inner] |]; try reflexivity.
    exfalso. apply (Hin inner). reflexivity. }
  rewrite E. unfold Handler.task_value. rewrite Ht. cbn [Handler.truthy].
  replace (String.eqb t "") with false by (symmetry; apply String.eqb_neq; exact Hne).
  cbn [negb]. rewrite Hstrip.
  change (String.eqb "merge_videos" "") with false.
  change (String.eqb "merge_videos" "split_audio") with false.
  change (String.eqb "merge_videos" "merge_videos") with true. cbv iota.
  unfold Handler.merge_videos, Handler.get_default, Handler.if_truthy, Handler._as_bool.
  rewrite Hv, Hp, Hr, Hc, Hpr, Ha.
  replace (List.length vids <? 2)%nat with false
    by (symmetry; apply Nat.ltb_ge; exact Hlen).
  reflexivity.
Qed.
End MergeRequests.

Section MergeRequestWitness.
Local Open Scope string_scope.
Local Open Scope list_scope.

Lemma merge_request_defaults_witness :
  let data := [("task", PStr "merge_videos");
               ("videos", PList [PStr "https://a/1.mp4"; PStr "https://a/2.mp4"])] in
  Handler.rp_handler sample_builtins (merge_cooperative (cooperative 9)) (PDict data) []
  = merge_response "merge_videos"
      (Merger.merge_videos (merge_cooperative (cooperative 9))
         ["https://a/1.mp4"; "https://a/2.mp4"] None true "20" "veryfast" "192k" []).
Proof.
  apply (merge_request_defaults sample_builtins (merge_cooperative (cooperative 9))
           [("task", PStr "merge_videos");
            ("videos", PList [PStr "https://a/1.mp4"; PStr "https://a/2.mp4"])]
           "merge_videos" [PStr "https://a/1.mp4"; PStr "https://a/2.mp4"] []);
    try reflexivity; try discriminate; try (cbn; lia); intros inner; discriminate.
Defined.
End MergeRequestWitness.

(** * Properties of the binary64 reading

    What follows is proved of [Module B64].  The floating-point operations
    are never unfolded: the statements hold whatever they return, and name
    the code's own intermediate values where the claims speak of them. *)

(** ** Loops that may raise *)

Section RaisingLoopFacts.
Context {S : Type} (body : Z -> S -> result S).

Lemma iterations_r_indices (idx : list Z) (st : S) :
  map fst (iterations_r body idx st)
  = firstn (List.length (iterations_r body idx st)) idx.
Proof.
  revert st. induction idx as [| i rest IH]; intros st; [reflexivity |].
  cbn [iterations_r map fst List.length firstn]. f_equal.
  destruct (body i st) as [e | st']; [reflexivity | apply IH].
Qed.

Lemma for_each_r_length (idx : list Z) (st st' : S) :
  for_each_r body idx st = inr st' ->
  List.length (iterations_r body idx st) = List.length idx.
Proof.
  revert st. induction idx as [| i rest IH]; intros st H; [reflexivity |].
  cbn [for_each_r] in H. cbn [iterations_r List.length].
  destruct (body i st) as [e | st1]; [discriminate H |].
  f_equal. apply IH. exact H.
Qed.

End RaisingLoopFacts.


Lemma map_r_length {A B : Type} (f : A -> result B) (l : list A) (bs : list B) :
  map_r f l = inr bs -> List.length bs = List.length l.
Proof.
  revert bs. induction l as [| a l IH]; intros bs H.
  - injection H as <-. reflexivity.
  - cbn [map_r] in H. destruct (f a) as [e | b]; [discriminate H |].
    destruct (map_r f l) as [e | bs']; [discriminate H |].
    injection H as <-. cbn. f_equal. apply IH. reflexivity.
Qed.

(** ** The planner loop *)

Section B64PlannerFacts.
Variables (segments max_k : Z) (ideal_len cycle : B64.float).
Hypothesis feasible : segments - 1 <= max_k.

Let body := B64.planner_body segments max_k ideal_len cycle.
Let chosen := B64.chosen_in segments max_k ideal_len cycle.

Lemma b64_chosen_k_bounds (ideal i : Z) (st : planner_state) :
  min_allowed st <= max_allowed segments max_k i ->
  collapses segments max_k i st = false
  /\ min_allowed st <= B64.chosen_k segments max_k ideal i st
     <= max_allowed segments max_k i.
Proof.
  intros H. unfold B64.chosen_k.
  assert (C : collapses segments max_k i st = false)
    by (unfold collapses; rewrite Z.gtb_ltb; apply Z.ltb_ge; exact H).
  rewrite C. split; [reflexivity | lia].
Qed.

(** What one iteration does to the loop variables, when it does not
    raise. *)
Lemma b64_body_inr (i : Z) (st st' : planner_state) :
  body i st = inr st' ->
  chosen (i, st) = inr (k_prev st') /\ ks st' = ks st ++ [k_prev st'].
Proof.
  unfold body, chosen, B64.planner_body, B64.chosen_in. cbn [fst snd].
  destruct (B64.ideal_k ideal_len cycle i) as [e | ideal]; [discriminate |].
  cbn [bind ret]. intros H. injection H as <-. cbn [k_prev ks]. auto.
Qed.


Lemma b64_planner_inv_step (i : Z) (st st' : planner_state) :
  1 <= i < segments ->
  planner_inv segments max_k i st ->
  body i st = inr st' ->
  planner_inv segments max_k (i + 1) st'.
Proof.
  intros Hi (Hroom & Hsorted & Hle & Hlen) Hb.
  unfold body, B64.planner_body in Hb.
  destruct (B64.ideal_k ideal_len cycle i) as [e | ideal]; [discriminate Hb |].
  cbn [bind ret] in Hb. injection Hb as <-.
  destruct (b64_chosen_k_bounds ideal i st Hroom) as [_ [Hlo Hhi]].
  set (k := B64.chosen_k segments max_k ideal i st) in *.
  unfold planner_inv, min_allowed, max_allowed in *. cbn [k_prev ks].
  repeat split.
  - lia.
  - change (0 :: ks st ++ [k]) with ((0 :: ks st) ++ [k]).
    apply StronglySorted_snoc; [exact Hsorted |].
    eapply Forall_impl; [| exact Hle]. cbn. intros x Hx. lia.
  - change (0 :: ks st ++ [k]) with ((0 :: ks st) ++ [k]).
    apply Forall_app. split.
    + eapply Forall_impl; [| exact Hle]. cbn. intros x Hx. lia.
    + repeat constructor. lia.
  - rewrite length_app. cbn. lia.
Qed.

(** The loop from iteration [lo] on: every iteration it enters finds the
    invariant, consecutive iterations are linked by the index chosen, and
    a loop that completes leaves the invariant of the end. *)
Lemma b64_loop_from (n : nat) (lo : Z) (st : planner_state) :
  1 <= lo -> lo + Z.of_nat n = Z.max lo segments ->
  planner_inv segments max_k lo st ->
  let its := iterations_r body (Py.range lo segments) st in
  Forall (fun it => 1 <= fst it < segments
                    /\ planner_inv segments max_k (fst it) (snd it)) its
  /\ (forall j it it',
        nth_error its j = Some it -> nth_error its (Datatypes.S j) = Some it' ->
        chosen it = inr (k_prev (snd it')))
  /\ (forall st',
        for_each_r body (Py.range lo segments) st = inr st' ->
        planner_inv segments max_k (Z.max lo segments) st'
        /\ map chosen its
           = map inr (skipn (List.length (ks st)) (ks st'))
        /\ firstn (List.length (ks st)) (ks st') = ks st).
Proof.
  revert lo st. induction n as [| n IH]; intros lo st Hlo Hn Hinv.
  - rewrite range_empty by lia. cbn. split; [constructor |].
    split; [intros [| j] it it' H; discriminate H |].
    intros st' H. injection H as <-.
    replace (Z.max lo segments) with lo by lia.
    split; [exact Hinv |]. rewrite skipn_all, firstn_all. auto.
  - rewrite range_first by lia. cbn [iterations_r for_each_r].
    destruct (body lo st) as [e | st1] eqn:Hb.
    + split; [constructor; [cbn; split; [lia | exact Hinv] | constructor] |].
      split; [intros [| [| j]] it it' H H'; discriminate H' |].
      intros st' H. discriminate H.
    + assert (Hinv1 : planner_inv segments max_k (lo + 1) st1)
        by (apply (b64_planner_inv_step lo st); [lia | exact Hinv | exact Hb]).
      destruct (b64_body_inr lo st st1 Hb) as [Hch Hks].
      destruct (IH (lo + 1) st1 ltac:(lia) ltac:(lia) Hinv1) as (HF & Hlink & Hend).
      split; [constructor; [cbn; split; [lia | exact Hinv] | exact HF] |].
      split.
      * intros [| j] it it' H H'.
        -- cbn in H. injection H as <-. cbn in H'.
           destruct (Py.range (lo + 1) segments) as [| i2 rest] eqn:E;
             [discriminate H' |].
           cbn [iterations_r] in H'. cbn in H'. injection H' as <-.
           cbn [snd]. exact Hch.
        -- cbn in H, H'. exact (Hlink j it it' H H').
      * intros st' H. destruct (Hend st' H) as (Hfin & Hmap & Hfirst).
        replace (Z.max (lo + 1) segments) with (Z.max lo segments) in Hfin by lia.
        split; [exact Hfin |].
        rewrite Hks, length_app in Hmap, Hfirst. cbn [List.length] in Hmap, Hfirst.
        assert (Hst' : ks st' = ks st ++ k_prev st1 :: skipn (List.length (ks st) + 1) (ks st')).
        { rewrite <- (firstn_skipn (List.length (ks st) + 1) (ks st')) at 1.
          rewrite Hfirst, <- app_assoc. reflexivity. }
        split.
        -- cbn [map]. rewrite Hch, Hmap. rewrite Hst' at 2.
           rewrite skipn_app, skipn_all, Nat.sub_diag. cbn [app skipn map]. reflexivity.
        -- rewrite Hst'. rewrite firstn_app, firstn_all, Nat.sub_diag. cbn.
           apply app_nil_r.
Qed.
End B64PlannerFacts.

(** ** [compute_equalized_cycle_cuts] in binary64 *)

(** The general case once the feasibility test has passed and the ideal
    length is computed: the loop, then the list. *)
Lemma b64_cuts_general_case
    (audio_dur cycle ideal_len : B64.float) (segments max_k : Z) :
  segments <> 1 ->
  B64.feasibility audio_dur cycle = inr max_k ->
  segments - 1 <= max_k ->
  B64.ideal_length audio_dur segments = inr ideal_len ->
  B64.compute_equalized_cycle_cuts audio_dur segments cycle
  = bind (for_each_r (B64.planner_body segments max_k ideal_len cycle)
            (Py.range 1 segments) planner_init)
      (fun st =>
         bind (map_r (B64.cut_at cycle) (ks st))
           (fun interior => ret ([B64.zero] ++ interior ++ [B64.round3 audio_dur]))).
Proof.
  intros Hs Hf F Hl. unfold B64.compute_equalized_cycle_cuts.
  replace (segments =? 1) with false by (symmetry; apply Z.eqb_neq; exact Hs).
  rewrite Hf. cbn [bind].
  replace (max_k <? segments - 1) with false by (symmetry; apply Z.ltb_ge; exact F).
  rewrite Hl. reflexivity.
Qed.

Lemma b64_infeasible_raises (audio_dur cycle : B64.float) (segments max_k : Z) :
  segments <> 1 ->
  B64.feasibility audio_dur cycle = inr max_k ->
  max_k < segments - 1 ->
  B64.compute_equalized_cycle_cuts audio_dur segments cycle = inl InsufficientCyclesError.
Proof.
  intros Hs Hf Hk. unfold B64.compute_equalized_cycle_cuts.
  replace (segments =? 1) with false by (symmetry; apply Z.eqb_neq; exact Hs).
  rewrite Hf. cbn [bind].
  replace (max_k <? segments - 1) with true by (symmetry; apply Z.ltb_lt; exact Hk).
  reflexivity.
Qed.

(** The loop of a feasible call that completes: its indices. *)
Lemma b64_planner_ks
    (segments max_k : Z) (ideal_len cycle : B64.float) (st : planner_state) :
  1 < segments -> segments - 1 <= max_k ->
  for_each_r (B64.planner_body segments max_k ideal_len cycle)
    (Py.range 1 segments) planner_init = inr st ->
  StronglySorted Z.lt (0 :: ks st)
  /\ Forall (fun k => 1 <= k <= max_k) (ks st)
  /\ Z.of_nat (List.length (ks st)) = segments - 1
  /\ map (B64.chosen_in segments max_k ideal_len cycle)
       (iterations_r (B64.planner_body segments max_k ideal_len cycle)
          (Py.range 1 segments) planner_init)
     = map inr (ks st).
Proof.
  intros Hs F Hrun.
  destruct (b64_loop_from segments max_k ideal_len cycle (Z.to_nat (segments - 1)) 1
              planner_init ltac:(lia) ltac:(lia) (planner_inv_init segments max_k F))
    as (_ & _ & Hend).
  destruct (Hend st Hrun) as ((Hroom & Hsorted & Hle & Hlen) & Hmap & _).
  replace (Z.max 1 segments) with segments in * by lia.
  split; [exact Hsorted |]. split; [| split; [exact Hlen | exact Hmap]].
  unfold min_allowed, max_allowed in Hroom.
  inversion Hsorted as [| ? ? _ Hgt]; subst.
  inversion Hle as [| ? ? _ Hle']; subst.
  rewrite Forall_forall in *. intros k Hk.
  specialize (Hgt k Hk). specialize (Hle' k Hk). lia.
Qed.







(** The feasibility value is the one of binary64, not of the reals: the
    float nearest to 3.001 less [1e-3] is exactly 3.0, so two segments of
    a 3 s cycle fit ([max_k = 1]) although the exact difference is just
    below 3; and the float nearest to 1.001 less [1e-3] is just below 1.0,
    so two segments of a 1 s cycle do not fit. *)
Example feasibility_at_the_boundary :
  B64.feasibility (B64.of_Q (3001 # 1000)) (B64.of_Q 3) = inr 1
  /\ B64.compute_equalized_cycle_cuts (B64.of_Q (3001 # 1000)) 2 (B64.of_Q 3)
     = inr [B64.zero; B64.of_Q 3; B64.of_Q (3001 # 1000)]
  /\ B64.feasibility (B64.of_Q (1001 # 1000)) (B64.of_Q 1) = inr 0
  /\ B64.compute_equalized_cycle_cuts (B64.of_Q (1001 # 1000)) 2 (B64.of_Q 1)
     = inl InsufficientCyclesError.
Proof. repeat split; vm_compute; reflexivity. Qed.

(** A cycle so short that the quotient overflows: [int] of infinity. *)
Example feasibility_overflow :
  B64.compute_equalized_cycle_cuts (B64.of_Q 10000000000) 2 (B64.of_Q (1 # 10 ^ 300))
  = inl (Raise OverflowError msg_inf_to_int).
Proof. vm_compute. reflexivity. Qed.

(** C10: when the feasibility test passes, every iteration the loop
    enters finds [min_allowed <= max_allowed], so the collapse branch is
    not taken; the index it chooses lies above [k_prev] and at most at
    [max_k]; [k_prev] is 0 in the first iteration and the index chosen by
    the iteration before in every other one, so each chosen index is
    above the one before it; and the interior cuts of a returned plan are
    the cuts at exactly these indices, one per iteration
    [i = 1 .. segments - 1]. *)
Theorem collapse_branch_dead
    (audio_dur cycle ideal_len : B64.float) (segments max_k : Z) :
  1 < segments ->
  B64.feasibility audio_dur cycle = inr max_k ->
  segments - 1 <= max_k ->
  B64.ideal_length audio_dur segments = inr ideal_len ->
  let its := iterations_r (B64.planner_body segments max_k ideal_len cycle)
               (Py.range 1 segments) planner_init in
  let chosen := B64.chosen_in segments max_k ideal_len cycle in
  map fst its = firstn (List.length its) (Py.range 1 segments)
  /\ Forall (fun it =>
               min_allowed (snd it) <= max_allowed segments max_k (fst it)
               /\ collapses segments max_k (fst it) (snd it) = false
               /\ forall k, chosen it = inr k -> k_prev (snd it) < k <= max_k) its
  /\ (forall it, nth_error its 0 = Some it -> k_prev (snd it) = 0)
  /\ (forall j it it',
        nth_error its j = Some it -> nth_error its (Datatypes.S j) = Some it' ->
        chosen it = inr (k_prev (snd it')))
  /\ forall cuts,
       B64.compute_equalized_cycle_cuts audio_dur segments cycle = inr cuts ->
       exists (indices : list Z) (interior : list B64.float),
         map chosen its = map inr indices
         /\ Z.of_nat (List.length its) = segments - 1
         /\ StronglySorted Z.lt (0 :: indices)
         /\ map_r (B64.cut_at cycle) indices = inr interior
         /\ cuts = [B64.zero] ++ interior ++ [B64.round3 audio_dur].
Proof.
  intros Hs Hf F Hl its chosen.
  destruct (b64_loop_from segments max_k ideal_len cycle (Z.to_nat (segments - 1)) 1
              planner_init ltac:(lia) ltac:(lia) (planner_inv_init segments max_k F))
    as (HF & Hlink & _).
  fold its in HF, Hlink. fold chosen in Hlink.
  split; [apply iterations_r_indices |]. split.
  { eapply Forall_impl; [| exact HF].
    intros [i st]. cbn [fst snd]. intros [Hi (Hroom & _)].
    split; [exact Hroom |].
    split; [apply (b64_chosen_k_bounds segments max_k 0 i st Hroom) |].
    intros k Hk. unfold chosen, B64.chosen_in in Hk. cbn [fst snd] in Hk.
    destruct (B64.ideal_k ideal_len cycle i) as [e | ideal]; [discriminate Hk |].
    cbn [bind ret] in Hk. injection Hk as <-.
    destruct (b64_chosen_k_bounds segments max_k ideal i st Hroom) as [_ [Hlo Hhi]].
    unfold min_allowed, max_allowed in *. lia. }
  split.
  { intros it H. unfold its in H. rewrite range_first in H by lia.
    cbn in H. injection H as <-. reflexivity. }
  split; [exact Hlink |].
  intros cuts Hrun.
  rewrite (b64_cuts_general_case audio_dur cycle ideal_len segments max_k) in Hrun
    by (assumption || lia).
  destruct (for_each_r _ _ _) as [e | st] eqn:Hloop; [discriminate Hrun |].
  cbn [bind] in Hrun.
  destruct (map_r (B64.cut_at cycle) (ks st)) as [e | interior] eqn:Hint;
    [discriminate Hrun |].
  cbn [bind ret] in Hrun. injection Hrun as <-.
  destruct (b64_planner_ks segments max_k ideal_len cycle st Hs F Hloop)
    as (Hsorted & _ & Hlen & Hmap).
  exists (ks st), interior.
  split; [exact Hmap |].
  split.
  { unfold its. rewrite (for_each_r_length _ _ _ _ Hloop), range_length. lia. }
  repeat split; assumption.
Qed.

(** Scenario 1: two iterations, which choose the indices 1 and 2. *)
Lemma collapse_branch_dead_witness :
  let its := iterations_r (B64.planner_body 3 2 (B64.of_Q 3) (B64.of_Q 3))
               (Py.range 1 3) planner_init in
  let chosen := B64.chosen_in 3 2 (B64.of_Q 3) (B64.of_Q 3) in
  map fst its = firstn (List.length its) (Py.range 1 3)
  /\ Forall (fun it =>
               min_allowed (snd it) <= max_allowed 3 2 (fst it)
               /\ collapses 3 2 (fst it) (snd it) = false
               /\ forall k, chosen it = inr k -> k_prev (snd it) < k <= 2) its
  /\ (forall it, nth_error its 0 = Some it -> k_prev (snd it) = 0)
  /\ (forall j it it',
        nth_error its j = Some it -> nth_error its (Datatypes.S j) = Some it' ->
        chosen it = inr (k_prev (snd it')))
  /\ forall cuts,
       B64.compute_equalized_cycle_cuts (B64.of_Q 9) 3 (B64.of_Q 3) = inr cuts ->
       exists (indices : list Z) (interior : list B64.float),
         map chosen its = map inr indices
         /\ Z.of_nat (List.length its) = 3 - 1
         /\ StronglySorted Z.lt (0 :: indices)
         /\ map_r (B64.cut_at (B64.of_Q 3)) indices = inr interior
         /\ cuts = [B64.zero] ++ interior ++ [B64.round3 (B64.of_Q 9)].
Proof.
  apply (collapse_branch_dead (B64.of_Q 9) (B64.of_Q 3) (B64.of_Q 3) 3 2);
    try (vm_compute; reflexivity); lia.
Defined.

(** ** The orchestrator in binary64 *)

Section B64RunFacts.
Variable env : collaborators.
Local Open Scope string_scope.
Local Open Scope list_scope.

Lemma b64_probe_log (p : string) (log log' : list event) (r : result B64.float) :
  B64.media_duration_seconds env p log = (r, log') -> log' = log ++ [ev_ffprobe p].
Proof.
  unfold B64.media_duration_seconds, IO.call. intros H. injection H as _ <-. reflexivity.
Qed.

Lemma b64_resolve_cycle_ok_log (video_duration : option B64.float)
    (video_url : option string) (log log' : list event) (cycle : B64.float) :
  B64.resolve_cycle env video_duration video_url log = (inr cycle, log') ->
  log' = log ++ match video_duration, video_url with
                | None, Some url =>
                    [ev_http_get url; ev_ffprobe (path_str (mk_path (td env) "in_video"))]
                | _, _ => []
                end.
Proof.
  unfold B64.resolve_cycle. destruct video_duration as [d |].
  - intros H. injection H as _ <-. rewrite app_nil_r. reflexivity.
  - destruct video_url as [url |]; [| discriminate].
    destruct url as [| c url']; [discriminate |].
    intros H. apply bind_inr in H. destruct H as (u & log1 & Hd & H).
    apply download_ok_log in Hd. apply try_except_inr, b64_probe_log in H.
    subst. rewrite <- app_assoc. reflexivity.
Qed.

Section ExportRun.
Variables (input_audio : string) (cuts : list B64.float).
Variables (outdir codec quality ext : string).

Let cmd_of := B64.segment_cmd env input_audio cuts outdir codec quality ext.
Let file_of := segment_file outdir ext.

(** An export loop that returns has built and run the command of every
    segment, in order. *)
Lemma b64_export_loop_ok (idx : list Z) (outputs out : list path)
    (log log' : list event) :
  B64.export_loop env input_audio cuts outdir codec quality ext idx outputs log
  = (inr out, log') ->
  out = outputs ++ map file_of idx
  /\ log' = log ++ map ev_ffmpeg (map cmd_of idx)
  /\ Forall (fun i => B64.export_cmd env input_audio cuts codec quality i (file_of i)
                      = inr (cmd_of i)) idx.
Proof.
  revert outputs log. induction idx as [| i rest IH]; intros outputs log H.
  - cbn in H. injection H as <- <-. cbn. rewrite !app_nil_r. auto.
  - cbn [B64.export_loop] in H.
    apply bind_inr in H. destruct H as (cmd & log1 & Hcmd & H).
    apply lift_inr in Hcmd. destruct Hcmd as [Hcmd ->].
    apply bind_inr in H. destruct H as (u & log2 & Hrun & H).
    unfold IO.call in Hrun. injection Hrun as _ <-.
    apply IH in H. destruct H as (-> & -> & HF).
    assert (E : cmd_of i = cmd).
    { unfold cmd_of, B64.segment_cmd. fold file_of in Hcmd |- *. rewrite Hcmd.
      reflexivity. }
    cbn [map]. rewrite E, <- !app_assoc. repeat split.
    constructor; [fold file_of in Hcmd; rewrite E; exact Hcmd | exact HF].
Qed.
End ExportRun.

Section PublishRun.
Variables (cuts : list B64.float) (cycle : B64.float) (prefix : string).
Variable first_inverted : bool.

(** A publish loop that returns has uploaded every file, in order, under
    [prefix + name], reports each under its public URL, and gives each
    entry the flag computed for its index. *)
Lemma b64_publish_loop_ok (files : list (Z * path))
    (results out : list split_entry) (log log' : list event) :
  B64.publish_loop env cuts cycle prefix first_inverted files results log
  = (inr out, log') ->
  let keys := map (fun f => (prefix ++ name (snd f))%string) files in
  exists added,
    out = results ++ added
    /\ map key added = keys
    /\ map audio added = map (join_public_url env) keys
    /\ log' = log ++ map ev_put_object keys
    /\ Forall2 (fun f entry =>
                  B64.inverted_flag cuts cycle first_inverted (fst f)
                  = inr (start_with_inverted entry)) files added.
Proof.
  revert results log. induction files as [| [idx local_path] rest IH]; intros results log H.
  - cbn in H. injection H as <- <-. exists []. cbn. rewrite !app_nil_r.
    repeat split. constructor.
  - cbn [B64.publish_loop] in H.
    apply bind_inr in H. destruct H as (public_url & log1 & Hup & H).
    unfold upload_file_to_r2, IO.bind, IO.call, IO.ret in Hup.
    destruct (put_object env log _ local_path); [discriminate Hup |].
    injection Hup as <- <-.
    apply bind_inr in H. destruct H as (inverted & log2 & Hflag & H).
    apply lift_inr in Hflag. destruct Hflag as [Hflag ->].
    apply IH in H. destruct H as (added & -> & Hk & Ha & -> & HF).
    eexists (_ :: added). cbn [map snd]. rewrite <- !app_assoc.
    split; [reflexivity |]. cbn [map key audio app].
    rewrite Hk, Ha. repeat split.
    constructor; [exact Hflag | exact HF].
Qed.
End PublishRun.
End B64RunFacts.

Lemma b64_for_each_ks_length (segments max_k : Z) (ideal_len cycle : B64.float)
    (idx : list Z) (st st' : planner_state) :
  for_each_r (B64.planner_body segments max_k ideal_len cycle) idx st = inr st' ->
  List.length (ks st') = (List.length (ks st) + List.length idx)%nat.
Proof.
  revert st. induction idx as [| i rest IH]; intros st H.
  - injection H as <-. cbn. lia.
  - cbn [for_each_r] in H.
    destruct (B64.planner_body segments max_k ideal_len cycle i st) as [e | st1] eqn:Hb;
      [discriminate H |].
    destruct (b64_body_inr segments max_k ideal_len cycle i st st1 Hb) as [_ Hks].
    rewrite (IH st1 H), Hks, length_app. cbn. lia.
Qed.

(** Whatever the duration and the cycle, a plan for [segments >= 1] has
    [segments + 1] cuts. *)
Lemma b64_cuts_length (audio_dur : B64.float) (segments : Z) (cycle : B64.float)
    (cuts : list B64.float) :
  1 <= segments ->
  B64.compute_equalized_cycle_cuts audio_dur segments cycle = inr cuts ->
  Z.of_nat (List.length cuts) = segments + 1.
Proof.
  intros Hs. unfold B64.compute_equalized_cycle_cuts.
  destruct (segments =? 1) eqn:E1.
  - apply Z.eqb_eq in E1. intros H. injection H as <-. cbn. lia.
  - destruct (B64.feasibility audio_dur cycle) as [e | max_k]; [discriminate |].
    cbn [bind]. destruct (_ <? _); [discriminate |].
    destruct (B64.ideal_length audio_dur segments) as [e | ideal_len]; [discriminate |].
    cbn [bind].
    destruct (for_each_r _ _ _) as [e | st] eqn:Hloop; [discriminate |].
    cbn [bind].
    destruct (map_r (B64.cut_at cycle) (ks st)) as [e | interior] eqn:Hint;
      [discriminate |].
    cbn [bind ret]. intros H. injection H as <-.
    cbn [app List.length].
    rewrite length_app, (map_r_length _ _ _ Hint),
      (b64_for_each_ks_length _ _ _ _ _ _ _ Hloop), range_length.
    cbn. lia.
Qed.

(** What a split that returns went through. *)
Lemma b64_split_success
    (env : collaborators) (segments : Z) (audio_url codec quality ext : string)
    (first_inverted : bool) (video_duration : option B64.float)
    (video_url r2_prefix : option string)
    (log log' : list event) (results : list split_entry) :
  B64.process_audio_split env segments audio_url codec quality ext first_inverted
    video_duration video_url r2_prefix log = (inr results, log') ->
  exists (audio_dur cycle : B64.float) (cuts : list B64.float)
         (log2 : list event),
    let audio_path := path_str (mk_path (td env) "in_audio") in
    let outdir := (td env ++ "/chunks")%string in
    let idx := Py.range 0 segments in
    let files := map (segment_file outdir ext) idx in
    let keys := map (fun f => (key_prefix env r2_prefix ++ name f)%string) files in
    B64.media_duration_seconds env audio_path (log ++ [ev_http_get audio_url])
      = (inr audio_dur, log2)
    /\ log2 = log ++ [ev_http_get audio_url; ev_ffprobe audio_path]
    /\ (exists log3, B64.resolve_cycle env video_duration video_url log2
                     = (inr cycle, log3))
    /\ PrimFloat.leb cycle B64.zero = false
    /\ B64.compute_equalized_cycle_cuts audio_dur segments cycle = inr cuts
    /\ Z.of_nat (List.length cuts) = segments + 1
    /\ 1 <= segments
    /\ map key results = keys
    /\ map audio results = map (join_public_url env) keys
    /\ log' = log
              ++ [ev_http_get audio_url; ev_ffprobe audio_path]
              ++ match video_duration, video_url with
                 | None, Some url =>
                     [ev_http_get url;
                      ev_ffprobe (path_str (mk_path (td env) "in_video"))]
                 | _, _ => []
                 end
              ++ map ev_ffmpeg
                   (map (B64.segment_cmd env audio_path cuts outdir codec quality ext) idx)
              ++ map ev_put_object keys
    /\ Forall (fun i =>
                 B64.export_cmd env audio_path cuts codec quality i
                   (segment_file outdir ext i)
                 = inr (B64.segment_cmd env audio_path cuts outdir codec quality ext i))
         idx
    /\ Forall2 (fun f entry =>
                  B64.inverted_flag cuts cycle first_inverted (fst f)
                  = inr (start_with_inverted entry))
         (enumerate1 files) results.
Proof.
  unfold B64.process_audio_split. intros H.
  destruct (segments <? 1) eqn:Hseg; [discriminate H |]. apply Z.ltb_ge in Hseg.
  destruct (negb (supported_codec codec)); [discriminate H |].
  apply bind_inr in H. destruct H as (u & log1 & Hdl & H).
  apply download_ok_log in Hdl. subst log1.
  apply bind_inr in H. destruct H as (audio_dur & log2 & Hprobe & H).
  apply try_except_inr in Hprobe. pose proof (b64_probe_log _ _ _ _ _ Hprobe) as Hlog2.
  apply bind_inr in H. destruct H as (cycle & log3 & Hcycle & H).
  pose proof (b64_resolve_cycle_ok_log _ _ _ _ _ _ Hcycle) as Hlog3.
  destruct (PrimFloat.leb cycle B64.zero) eqn:Hc; [discriminate H |].
  apply bind_inr in H. destruct H as (cuts & log4 & Hcuts & H).
  apply try_except_inr, lift_inr in Hcuts. destruct Hcuts as [Hcuts ->].
  apply bind_inr in H. destruct H as (local_files & log5 & Hexport & H).
  apply try_except_inr in Hexport. unfold B64.export_segments in Hexport.
  apply b64_export_loop_ok in Hexport. destruct Hexport as (Hfiles & Hlog5 & Hcmds).
  pose proof (b64_cuts_length audio_dur segments cycle cuts Hseg Hcuts) as Hlen.
  replace (Z.of_nat (List.length cuts) - 1) with segments in * by lia.
  cbn [app] in Hfiles.
  apply b64_publish_loop_ok in H. cbv zeta in H.
  destruct H as (added & -> & Hk & Ha & -> & HF).
  exists audio_dur, cycle, cuts, log2. cbv zeta.
  rewrite <- app_assoc in Hlog2. cbn [app] in Hlog2.
  rewrite <- (map_map snd (fun p => (key_prefix env r2_prefix ++ name p)%string)),
    enumerate1_snd, Hfiles in Hk, Ha |- *.
  rewrite Hfiles in HF.
  split; [exact Hprobe |]. split; [exact Hlog2 |].
  split; [exists log3; exact Hcycle |].
  split; [exact Hc |]. split; [exact Hcuts |]. split; [exact Hlen |].
  split; [exact Hseg |]. cbn [app].
  split; [exact Hk |]. split; [exact Ha |].
  split; [subst; rewrite <- !app_assoc; reflexivity |].
  split; [exact Hcmds | exact HF].
Qed.



(** The flag follows the floats.  90.93 s of audio in two segments of a
    7.7 s cycle are cut at 46.2.  The float nearest to 7.7 is a little
    above 7.7, and the real number 46.2 holds only five whole cycles of
    it; the float nearest to 46.2 holds six, [46.2 // 7.7] is 6.0, and
    both segments start in an even cycle. *)
Example phase_at_a_rounded_cut :
  B64.compute_equalized_cycle_cuts (B64.of_Q (9093 # 100)) 2 (B64.of_Q (77 # 10))
  = inr [B64.zero; B64.of_Q (462 # 10); B64.of_Q (9093 # 100)]
  /\ B64.floordiv (B64.of_Q (462 # 10)) (B64.of_Q (77 # 10)) = inr (B64.of_Q 6)
  /\ map start_with_inverted
       (match fst (B64.process_audio_split (cooperative (9093 # 100)) 2
                     "https://a/x.mp3" "mp3" "2" "mp3" false
                     (Some (B64.of_Q (77 # 10))) None None []) with
        | inr results => results
        | inl _ => []
        end)
     = [false; false].
Proof. repeat split; vm_compute; reflexivity. Qed.

(** X9. When the feasibility test of the planner fails inside a split, the
    error surfaces as a [RuntimeError] carrying the planner's message, and
    the run stops there: no transcoder call, no upload. *)
Theorem split_reports_insufficient_cycles
    (env : collaborators) (segments : Z) (audio_url codec quality ext : string)
    (first_inverted : bool) (video_duration : option B64.float)
    (video_url r2_prefix : option string)
    (log log1 log2 log3 : list event) (audio_dur cycle : B64.float) (max_k : Z) :
  1 < segments -> supported_codec codec = true ->
  download_to_path env audio_url (mk_path (td env) "in_audio") log = (inr tt, log1) ->
  B64.media_duration_seconds env (path_str (mk_path (td env) "in_audio")) log1
    = (inr audio_dur, log2) ->
  B64.resolve_cycle env video_duration video_url log2 = (inr cycle, log3) ->
  PrimFloat.leb cycle B64.zero = false ->
  B64.feasibility audio_dur cycle = inr max_k ->
  max_k < segments - 1 ->
  B64.process_audio_split env segments audio_url codec quality ext first_inverted
    video_duration video_url r2_prefix log
  = (inl (Raise RuntimeError msg_no_cycles), log3).
Proof.
  intros Hs Hcodec Hdl Hprobe Hcycle Hpos Hf Hk. unfold B64.process_audio_split.
  replace (segments <? 1) with false by (symmetry; apply Z.ltb_ge; lia).
  rewrite Hcodec. cbn [negb].
  unfold IO.bind at 1. rewrite Hdl.
  unfold IO.bind at 1. unfold IO.try_except at 1. rewrite Hprobe.
  unfold IO.bind at 1. rewrite Hcycle, Hpos.
  unfold IO.bind at 1. unfold IO.try_except at 1, IO.lift.
  rewrite (b64_infeasible_raises audio_dur cycle segments max_k ltac:(lia) Hf Hk).
  reflexivity.
Qed.

(** Scenario 3 as a request: 5 s of audio, three segments, a 3 s cycle. *)
Lemma split_reports_insufficient_cycles_witness :
  B64.process_audio_split (cooperative 5) 3 "https://a/x.mp3" "mp3" "2" "mp3" false
    (Some (B64.of_Q 3)) None None []
  = (inl (Raise RuntimeError msg_no_cycles),
     [ev_http_get "https://a/x.mp3"; ev_ffprobe "/tmp/td/in_audio"]).
Proof.
  apply (split_reports_insufficient_cycles (cooperative 5) 3 "https://a/x.mp3" "mp3" "2"
           "mp3" false (Some (B64.of_Q 3)) None None []
           [ev_http_get "https://a/x.mp3"]
           [ev_http_get "https://a/x.mp3"; ev_ffprobe "/tmp/td/in_audio"]
           [ev_http_get "https://a/x.mp3"; ev_ffprobe "/tmp/td/in_audio"]
           (B64.of_Q 5) (B64.of_Q 3) 1);
    try (vm_compute; reflexivity); lia.
Defined.

(** X11. What a successful split did, in order: it fetched and probed the
    audio, resolved the cycle (fetching and probing the video only when no
    [video_duration] was given), ran one transcoder command per segment in
    cut order, each built from the plan by [export_segments], and only
    then uploaded the segments, one by one in the same order.  The entries
    come back in that order, each with the key [prefix + local_path.name]
    and the public URL of that key. *)
Theorem split_success_trace
    (env : collaborators) (segments : Z) (audio_url codec quality ext : string)
    (first_inverted : bool) (video_duration : option B64.float)
    (video_url r2_prefix : option string)
    (log log' : list event) (results : list split_entry) :
  B64.process_audio_split env segments audio_url codec quality ext first_inverted
    video_duration video_url r2_prefix log = (inr results, log') ->
  exists (audio_dur cycle : B64.float) (cuts : list B64.float),
    B64.compute_equalized_cycle_cuts audio_dur segments cycle = inr cuts
    /\ let audio_path := path_str (mk_path (td env) "in_audio") in
       let outdir := (td env ++ "/chunks")%string in
       let idx := Py.range 0 segments in
       let keys :=
         map (fun i => (key_prefix env r2_prefix ++ name (segment_file outdir ext i))%string)
           idx in
       let cmd_of := B64.segment_cmd env audio_path cuts outdir codec quality ext in
       map key results = keys
       /\ map audio results = map (join_public_url env) keys
       /\ Forall (fun i => B64.export_cmd env audio_path cuts codec quality i
                             (segment_file outdir ext i) = inr (cmd_of i)) idx
       /\ log' = log
                 ++ [ev_http_get audio_url; ev_ffprobe audio_path]
                 ++ match video_duration, video_url with
                    | None, Some url =>
                        [ev_http_get url;
                         ev_ffprobe (path_str (mk_path (td env) "in_video"))]
                    | _, _ => []
                    end
                 ++ map ev_ffmpeg (map cmd_of idx)
                 ++ map ev_put_object keys.
Proof.
  intros H. apply b64_split_success in H.
  destruct H as (audio_dur & cycle & cuts & log2 & H). cbv zeta in H.
  destruct H as (_ & _ & _ & _ & Hcuts & _ & _ & Hk & Ha & Hlog & Hcmds & _).
  exists audio_dur, cycle, cuts. split; [exact Hcuts |]. cbv zeta.
  rewrite (map_map (segment_file (td env ++ "/chunks") ext)
             (fun f => (key_prefix env r2_prefix ++ name f)%string)) in Hk, Ha, Hlog.
  repeat split; assumption.
Qed.

(** 32.8 s of audio, three segments, an 11.4 s cycle given by the caller,
    keys under "out/".  The last segment lasts [32.8 - 22.8], which is
    9.999999999999996 in binary64: its [-t] is the thirteen characters
    00:00:09.1000. *)
Lemma split_success_trace_witness :
  let env := cooperative (328 # 10) in
  let run := B64.process_audio_split env 3 "https://a/x.mp3" "mp3" "2" "mp3"
               false (Some (B64.of_Q (114 # 10))) None (Some "/out/"%string) [] in
  let results := match fst run with inr l => l | inl _ => [] end in
  exists (audio_dur cycle : B64.float) (cuts : list B64.float),
    B64.compute_equalized_cycle_cuts audio_dur 3 cycle = inr cuts
    /\ let audio_path := path_str (mk_path (td env) "in_audio") in
       let outdir := (td env ++ "/chunks")%string in
       let idx := Py.range 0 3 in
       let keys :=
         map (fun i => (key_prefix env (Some "/out/"%string)
                        ++ name (segment_file outdir "mp3" i))%string) idx in
       let cmd_of := B64.segment_cmd env audio_path cuts outdir "mp3" "2" "mp3" in
       map key results = keys
       /\ map audio results = map (join_public_url env) keys
       /\ Forall (fun i => B64.export_cmd env audio_path cuts "mp3" "2" i
                             (segment_file outdir "mp3" i) = inr (cmd_of i)) idx
       /\ snd run
          = []
            ++ [ev_http_get "https://a/x.mp3"; ev_ffprobe audio_path]
            ++ []
            ++ map ev_ffmpeg (map cmd_of idx)
            ++ map ev_put_object keys.
Proof.
  intros env run results.
  apply (split_success_trace env 3 "https://a/x.mp3" "mp3" "2" "mp3"
           false (Some (B64.of_Q (114 # 10))) None (Some "/out/"%string) [] (snd run) results).
  vm_compute. reflexivity.
Defined.

Example last_segment_duration_overflows :
  B64.hhmmss_ms (B64.max0 (PrimFloat.sub (B64.of_Q (328 # 10)) (B64.of_Q (228 # 10))))
  = inr "00:00:09.1000"%string.
Proof. vm_compute. reflexivity. Qed.

(** ** Keys of a split *)

Section KeyFacts.
Local Open Scope string_scope.

Lemma has_slash_app (a b : string) :
  Posix.has_slash (a ++ b) = Posix.has_slash a || Posix.has_slash b.
Proof.
  induction a as [| c a IH]; [reflexivity |].
  cbn [append Posix.has_slash]. rewrite IH, orb_assoc. reflexivity.
Qed.

Lemma components_without_slash (cur s : string) :
  Posix.has_slash s = false -> Posix.components_from cur s = [cur ++ s].
Proof.
  revert cur. induction s as [| c s IH]; intros cur H.
  - cbn. rewrite append_empty_r. reflexivity.
  - cbn [Posix.has_slash] in H. apply orb_false_elim in H. destruct H as [Hc Hs].
    cbn [Posix.components_from]. rewrite Hc, (IH _ Hs), append_assoc. reflexivity.
Qed.

Lemma uint_without_slash (d : Decimal.uint) :
  Posix.has_slash (NilEmpty.string_of_uint d) = false.
Proof. induction d; cbn; auto. Qed.

Lemma digits_without_slash (z : Z) : Posix.has_slash (Fmt.digits z) = false.
Proof.
  unfold Fmt.digits, NilZero.string_of_uint.
  destruct (N.to_uint (Z.to_N z)) eqn:E; try reflexivity;
    rewrite <- E; apply uint_without_slash.
Qed.

Lemma zeros_without_slash (n : nat) : Posix.has_slash (Fmt.zeros n) = false.
Proof. induction n; cbn; auto. Qed.

Lemma zero_padded_without_slash (width : nat) (z : Z) :
  Posix.has_slash (Fmt.zero_padded width z) = false.
Proof.
  unfold Fmt.zero_padded.
  rewrite !has_slash_app, zeros_without_slash, digits_without_slash.
  destruct (z <? 0)%Z; reflexivity.
Qed.

(** With no "/" in the extension, the file of a segment is
    part_NNN.ext inside the output directory. *)
Lemma segment_file_plain (outdir ext : string) (i : Z) :
  Posix.has_slash ext = false ->
  segment_file outdir ext i
  = mk_path outdir ("part_" ++ Fmt.zero_padded 3 (i + 1) ++ "." ++ ext).
Proof.
  intros H. unfold segment_file, Posix.child, Posix.parts.
  rewrite components_without_slash.
  2:{ rewrite !has_slash_app, zero_padded_without_slash, H. reflexivity. }
  cbn [append filter Posix.kept String.eqb Ascii.eqb Bool.eqb negb andb removelast last
       String.concat].
  reflexivity.
Qed.

Lemma segment_names_distinct (prefix outdir ext : string) (n : Z) :
  Posix.has_slash ext = false ->
  NoDup (map (fun i => prefix ++ name (segment_file outdir ext i)) (Py.range 0 n)).
Proof.
  intros Hext.
  apply NoDup_map_NoDup_ForallPairs; [| apply range_NoDup].
  intros i j Hi Hj E. apply range_bounds in Hi, Hj.
  rewrite !segment_file_plain in E by exact Hext. cbn [name] in E.
  apply append_cancel_l in E. apply (append_cancel_l "part_") in E.
  apply append_cancel_r in E.
  apply zero_padded_injective in E; lia.
Qed.
End KeyFacts.

(** X26. With no "/" in the extension, the keys of a successful split are
    pairwise distinct: no segment is uploaded over another, however many
    segments there are (the number in part_NNN grows past three digits
    instead of wrapping). *)
Theorem split_keys_distinct
    (env : collaborators) (segments : Z) (audio_url codec quality ext : string)
    (first_inverted : bool) (video_duration : option B64.float)
    (video_url r2_prefix : option string)
    (log log' : list event) (results : list split_entry) :
  Posix.has_slash ext = false ->
  B64.process_audio_split env segments audio_url codec quality ext first_inverted
    video_duration video_url r2_prefix log = (inr results, log') ->
  NoDup (map key results).
Proof.
  intros Hext H. apply b64_split_success in H.
  destruct H as (audio_dur & cycle & cuts & log2 & H). cbv zeta in H.
  destruct H as (_ & _ & _ & _ & _ & _ & _ & Hk & _).
  rewrite Hk, map_map. apply segment_names_distinct. exact Hext.
Qed.

Section KeyWitnesses.
Local Open Scope string_scope.
Local Open Scope list_scope.

(** 9 s of audio in three segments, keys under the default prefix. *)
Lemma split_keys_distinct_witness :
  let run := B64.process_audio_split (cooperative 9) 3 "https://a/x.mp3" "mp3" "2" "mp3"
               false (Some (B64.of_Q 3)) None None [] in
  NoDup (map key (match fst run with inr l => l | inl _ => [] end)).
Proof.
  intros run.
  apply (split_keys_distinct (cooperative 9) 3 "https://a/x.mp3" "mp3" "2" "mp3"
           false (Some (B64.of_Q 3)) None None [] (snd run)).
  - reflexivity.
  - vm_compute. reflexivity.
Defined.

(** An extension with a "/" in it: every segment is written to a file
    named by what follows the "/", and all of them are uploaded under the
    same key. *)
Example slash_in_extension_collides :
  map key
    (match fst (B64.process_audio_split (cooperative 9) 3 "https://a/x.mp3" "mp3" "2" "a/b"
                  false (Some (B64.of_Q 3)) None None []) with
     | inr results => results
     | inl _ => []
     end)
  = ["chunks/b"; "chunks/b"; "chunks/b"].
Proof. vm_compute. reflexivity. Qed.
End KeyWitnesses.

(** ** [hhmmss_ms] in binary64 *)

(** X4. When the whole seconds [int(t)] are below 100 hours and the
    millisecond field [int(round((t - int(t)) * 1000))] is below 1000, the
    result is the 12 characters HH:MM:SS.mmm; its first three fields read
    back as hours, minutes below 60 and seconds below 60 that add up to
    [int(t)], and its last field reads back as the millisecond field. *)
Theorem hhmmss_ms_reads_back (t : B64.float) (n ms : Z) :
  B64.int t = inr n -> 0 <= n < 360000 ->
  B64.ms_field t = inr ms -> 0 <= ms < 1000 ->
  exists out : string,
    B64.hhmmss_ms t = inr out
    /\ String.length out = 12%nat
    /\ String.get 2 out = Some ":"%char
    /\ String.get 5 out = Some ":"%char
    /\ String.get 8 out = Some "."%char
    /\ exists h m s : Z,
         read_decimal (String.substring 0 2 out) = Some h
         /\ read_decimal (String.substring 3 2 out) = Some m
         /\ read_decimal (String.substring 6 2 out) = Some s
         /\ read_decimal (String.substring 9 3 out) = Some ms
         /\ 0 <= m < 60 /\ 0 <= s < 60
         /\ 3600 * h + 60 * m + s = n.
Proof.
  intros Hint Hn Hms Hms'. unfold B64.hhmmss_ms. rewrite Hms, Hint. cbn [bind ret].
  eexists. split; [reflexivity |].
  destruct (zero_padded_2_shape (n / 3600)) as (a1 & b1 & -> & R1);
    [split; [apply Z.div_pos; lia | apply Z.div_lt_upper_bound; lia] |].
  destruct (zero_padded_2_shape ((n / 60) mod 60)) as (a2 & b2 & -> & R2);
    [pose proof (Z.mod_pos_bound (n / 60) 60); lia |].
  destruct (zero_padded_2_shape (n mod 60)) as (a3 & b3 & -> & R3);
    [pose proof (Z.mod_pos_bound n 60); lia |].
  destruct (zero_padded_3_shape ms Hms') as (a4 & b4 & c4 & -> & R4).
  cbn [String.append String.length String.get String.substring].
  repeat (split; [reflexivity |]).
  exists (n / 3600), ((n / 60) mod 60), (n mod 60).
  repeat (split; [assumption || (apply Z.mod_pos_bound; lia) || lia |]).
  pose proof (Z.div_mod n 60 ltac:(lia)) as H1.
  pose proof (Z.div_mod (n / 60) 60 ltac:(lia)) as H2.
  rewrite Z.div_div in H2 by lia. change (60 * 60) with 3600 in H2. lia.
Qed.

(** One hour, two minutes, 3.0415 seconds: the float nearest to 3723.0415
    is below it, and the millisecond field is 41. *)
Lemma hhmmss_ms_reads_back_witness :
  exists out : string,
    B64.hhmmss_ms (B64.of_Q (37230415 # 10000)) = inr out
    /\ String.length out = 12%nat
    /\ String.get 2 out = Some ":"%char
    /\ String.get 5 out = Some ":"%char
    /\ String.get 8 out = Some "."%char
    /\ exists h m s : Z,
         read_decimal (String.substring 0 2 out) = Some h
         /\ read_decimal (String.substring 3 2 out) = Some m
         /\ read_decimal (String.substring 6 2 out) = Some s
         /\ read_decimal (String.substring 9 3 out) = Some 41
         /\ 0 <= m < 60 /\ 0 <= s < 60
         /\ 3600 * h + 60 * m + s = 3723.
Proof.
  apply (hhmmss_ms_reads_back (B64.of_Q (37230415 # 10000)) 3723 41);
    try (vm_compute; reflexivity); lia.
Defined.

(** The millisecond field reaches 1000 below a fractional part of 0.9995
    too: the product of the float just below 0.9995 and 1000 is rounded
    to 999.5, which [round] takes to the even 1000. *)
Example ms_field_at_the_tie :
  B64.ms_field (B64.of_Q (9994999999999999 # 10000000000000000)) = inr 1000
  /\ B64.hhmmss_ms (B64.of_Q (9994999999999999 # 10000000000000000))
     = inr "00:00:00.1000"%string.
Proof. split; vm_compute; reflexivity. Qed.
